(** * humanoid-gym: the log analyser and the episode logger

    A shallow embedding of [humanoid/data_analyzer.py] and
    [humanoid/utils/logger.py].

    Conventions of the embedding.
    - A Python [float] is a binary64 number: Rocq's primitive [float] with its
      IEEE 754 operations.  A Python [int] is a [Z].
    - A Python [str] is a list of one-byte characters ([ascii]); on these the
      class [\d] of [re] is [0-9].  Dictionary keys and file names are
      [string]s.
    - A Python exception is a value of [exn]; a computation that may raise has
      a result in [res].
    - Where versions and systems differ, the embedding follows CPython 3.11
      on POSIX and NumPy 1.24 or later. *)

From Stdlib Require Import ZArith Ascii String Floats Lia.
From stdpp Require Import base option list gmap strings.

Local Open Scope Z_scope.

(** ** Exceptions *)

Inductive exn : Type :=
| ValueError (msg : string)
| KeyError (key : string)
| TypeError (msg : string)
| AttributeError (msg : string)
| OverflowError (msg : string)
| FileNotFoundError (path : string)
| FileExistsError (path : string)
| UnpicklingError (msg : string)
| RuntimeError (msg : string).

Inductive res (A : Type) : Type :=
| Ok (a : A)
| Raise (e : exn).

Arguments Ok {A} a.
Arguments Raise {A} e.

Definition res_bind {A B : Type} (m : res A) (k : A -> res B) : res B :=
  match m with
  | Ok a => k a
  | Raise e => Raise e
  end.

Notation "'let!' x ':=' m 'in' k" := (res_bind m (fun x => k))
  (at level 10, x name, m at level 100, k at level 200).

(** A list comprehension whose body may raise: elements are evaluated from
    left to right and the first exception ends the comprehension. *)
Section ResMap.
Context {A B : Type} (f : A -> res B).

Fixpoint res_map (l : list A) : res (list B) :=
  match l with
  | [] => Ok []
  | a :: l' => let! b := f a in let! bs := res_map l' in Ok (b :: bs)
  end.

End ResMap.

Definition is_ok {A : Type} (m : res A) : bool :=
  match m with Ok _ => true | Raise _ => false end.

(** ** Python strings *)

Definition str : Type := list ascii.

Definition s (x : string) : str := list_ascii_of_string x.

Definition chr_eqb (a b : ascii) : bool := Ascii.eqb a b.

Arguments chr_eqb : simpl never.

Fixpoint startswith (pre l : str) : bool :=
  match pre, l with
  | [], _ => true
  | _ :: _, [] => false
  | a :: pre', b :: l' => chr_eqb a b && startswith pre' l'
  end.

(** [l[len(pre):]], used where [startswith pre l] holds. *)
Definition after (pre l : str) : str := drop (length pre) l.

(** [x in l] for strings: [x] occurs in [l] as a contiguous substring. *)
Fixpoint contains (x l : str) : bool :=
  startswith x l || match l with [] => false | _ :: l' => contains x l' end.

(** [l.split(", ")]: the pieces between the successive, non-overlapping
    occurrences of the separator, scanned from the left.  [cur] holds the
    characters of the piece being read, last one first. *)
Fixpoint split_comma_space_from (cur l : str) : list str :=
  match l with
  | [] => [rev cur]
  | a :: l' =>
      match l' with
      | b :: l'' =>
          if chr_eqb a "," && chr_eqb b " "
          then rev cur :: split_comma_space_from [] l''
          else split_comma_space_from (a :: cur) l'
      | [] => [rev (a :: cur)]
      end
  end.

Definition split_comma_space (l : str) : list str := split_comma_space_from [] l.

(** The text-mode file iterator: each line runs up to and including its
    newline; a last line without newline is delivered as it is.  The text is
    the one the file object delivers (newlines already translated). *)
Fixpoint file_lines_from (cur text : str) : list str :=
  match text with
  | [] => match cur with [] => [] | _ => [rev cur] end
  | c :: text' =>
      if chr_eqb c "010"
      then rev (c :: cur) :: file_lines_from [] text'
      else file_lines_from (c :: cur) text'
  end.

Definition file_lines (text : str) : list str := file_lines_from [] text.

(** ** Numbers *)

Definition is_digit (c : ascii) : bool :=
  let n := nat_of_ascii c in (48 <=? n)%nat && (n <=? 57)%nat.

Definition digit_value (c : ascii) : Z := Z.of_nat (nat_of_ascii c) - 48.

(** [int(g)] on a run of decimal digits, the only strings the step pattern
    captures.  (The limit that Python, from version 3.11 on, puts on the
    length of such a string is left to [read_line] below.) *)
Definition py_int (g : str) : Z :=
  fold_left (fun acc c => 10 * acc + digit_value c) g 0.

(** The binary64 number nearest to [m * 2^e] (ties to even), as a
    specification float. *)
Definition round_Z (m e : Z) : spec_float := binary_normalize prec emax m e false.

(** Conversion of a Python [int] to [float], as in [x * n] or [x / n] with
    [x] a float: the nearest binary64 number, and no result
    ([OverflowError]) when there is none. *)
Definition float_of_int (n : Z) : option float :=
  match round_Z n 0 with
  | S754_infinity _ => None
  | x => Some (SF2Prim x)
  end.

(** The binary64 number nearest to [(-1)^neg * m / 10^k]. *)
Definition decimal_to_float (neg : bool) (m : Z) (k : nat) : float :=
  match m with
  | Zpos p =>
      SF2Prim (SFdiv prec emax (S754_finite neg p 0)
                 (S754_finite false (Z.to_pos (10 ^ Z.of_nat k)) 0))
  | _ => SF2Prim (S754_zero neg)
  end.

Definition is_space (c : ascii) : bool :=
  let n := nat_of_ascii c in
  ((9 <=? n)%nat && (n <=? 13)%nat) || ((28 <=? n)%nat && (n <=? 32)%nat)
  || (n =? 133)%nat || (n =? 160)%nat.

Fixpoint lstrip (l : str) : str :=
  match l with
  | c :: l' => if is_space c then lstrip l' else l
  | [] => []
  end.

Definition strip (l : str) : str := rev (lstrip (rev (lstrip l))).

(** The longest run of digits at the head of [l], and what follows it. *)
Fixpoint span_digits (l : str) : str * str :=
  match l with
  | c :: l' =>
      if is_digit c then let '(ds, r) := span_digits l' in (c :: ds, r) else ([], l)
  | [] => ([], [])
  end.

(** [float(tok)] for the tokens the data patterns can capture, which hold no
    character besides digits, [-], [.], [,] and the space: surrounding white
    space is dropped, then the token must read as an optional sign, digits
    and at most one point, with a digit on one side of the point at least.
    The value is the nearest binary64 number.  (The exponent, [inf], [nan]
    and underscore forms of Python's [float] need characters that the
    patterns never capture; they are not read here.) *)
Definition py_float (tok : str) : res float :=
  let t := strip tok in
  let '(neg, body) :=
    match t with
    | c :: t' =>
        if chr_eqb c "-" then (true, t')
        else if chr_eqb c "+" then (false, t') else (false, t)
    | [] => (false, t)
    end in
  let '(ip, r1) := span_digits body in
  let '(fp, r2) :=
    match r1 with
    | c :: r1' => if chr_eqb c "." then span_digits r1' else ([], r1)
    | [] => ([], r1)
    end in
  match r2, ip ++ fp with
  | [], _ :: _ => Ok (decimal_to_float neg (py_int (ip ++ fp)) (length fp))
  | _, _ => Raise (ValueError "could not convert string to float")
  end.

(** ** Regular expressions

    The three patterns of the analyser have one shape: literal text, one
    captured group [(C+)] over a character class [C], literal text.  [search]
    is [re.search] on such a pattern and returns [group(1)]: the leftmost
    position where the pattern matches, the group as long as a match allows
    (greedy, giving characters back one at a time). *)

Record pattern : Type := {
  lead : str;
  cls : ascii -> bool;
  trail : str
}.

Fixpoint group_plus (c : ascii -> bool) (tr l : str) : option str :=
  match l with
  | a :: l' =>
      if c a then
        match group_plus c tr l' with
        | Some g => Some (a :: g)
        | None => if startswith tr l' then Some [a] else None
        end
      else None
  | [] => None
  end.

Definition match_at (p : pattern) (l : str) : option str :=
  if startswith (lead p) l then group_plus (cls p) (trail p) (after (lead p) l)
  else None.

Fixpoint search (p : pattern) (l : str) : option str :=
  match match_at p l with
  | Some g => Some g
  | None => match l with [] => None | _ :: l' => search p l' end
  end.

(** [[-\d\., ]] *)
Definition number_list_char (c : ascii) : bool :=
  chr_eqb c "-" || is_digit c || chr_eqb c "." || chr_eqb c "," || chr_eqb c " ".

(** [r"Step (\d+):"] *)
Definition step_pattern : pattern :=
  {| lead := s "Step "; cls := is_digit; trail := s ":" |}.

Record data_type_config : Type := {
  dt_pattern : pattern;
  dt_label : string
}.

(** [r"Output Torque: \[([-\d\., ]+)\]"] *)
Definition torque_pattern : pattern :=
  {| lead := s "Output Torque: ["; cls := number_list_char; trail := s "]" |}.

(** [r"Actions\[0 ~ 11\] --> joint_target: \[([-\d\., ]+)\]"] *)
Definition action_pattern : pattern :=
  {| lead := s "Actions[0 ~ 11] --> joint_target: [";
     cls := number_list_char; trail := s "]" |}.

Definition DATA_TYPES : list (string * data_type_config) :=
  [ ("torque"%string, {| dt_pattern := torque_pattern; dt_label := "Torque (Nm)" |});
    ("action"%string, {| dt_pattern := action_pattern; dt_label := "Action" |}) ].

Fixpoint dict_get {V : Type} (d : list (string * V)) (k : string) : res V :=
  match d with
  | [] => Raise (KeyError k)
  | (k', v) :: d' => if String.eqb k' k then Ok v else dict_get d' k
  end.

(** ** NumPy arrays

    A two-dimensional float array is the list of its rows; [[]] is the empty
    array [np.array([])]. *)

Definition ndarray : Type := list (list float).

Definition rectangular (m : ndarray) : Prop :=
  forall r1 r2 : list float, r1 ∈ m -> r2 ∈ m -> length r1 = length r2.

(** [np.array(rows)] on a list of lists of floats.  Rows of one length give
    the two-dimensional array; rows of different lengths are refused with
    a [ValueError] (NumPy 1.24 and later: an inhomogeneous shape is an
    error). *)
Definition np_array (rows : list (list float)) : res ndarray :=
  match rows with
  | [] => Ok []
  | r :: rs =>
      if forallb (fun r' => (length r' =? length r)%nat) rs then Ok rows
      else Raise (ValueError "setting an array element with a sequence: inhomogeneous shape")
  end.

(** ** data_analyzer.parse_log_data *)

Record scan : Type := {
  current_step : option Z;
  steps : list Z;
  data_matrix : list (list float)
}.

Definition scan_start : scan :=
  {| current_step := None; steps := []; data_matrix := [] |}.

(** The body of [for line in f]. *)
Definition scan_line (data_pattern : pattern) (st : scan) (line : str) : res scan :=
  let cur :=
    match search step_pattern line with
    | Some g => Some (py_int g)
    | None => current_step st
    end in
  match search data_pattern line, cur with
  | Some g, Some c =>
      let! values := res_map py_float (split_comma_space g) in
      Ok {| current_step := cur;
            steps := steps st ++ [c];
            data_matrix := data_matrix st ++ [values] |}
  | _, _ =>
      Ok {| current_step := cur; steps := steps st; data_matrix := data_matrix st |}
  end.

Fixpoint scan_lines (data_pattern : pattern) (st : scan) (lines : list str) : res scan :=
  match lines with
  | [] => Ok st
  | line :: lines' =>
      let! st' := scan_line data_pattern st line in
      scan_lines data_pattern st' lines'
  end.

(** [parse_log_data(log_file, data_type)], on the text of the log file. *)
Definition parse_log_data (text : str) (data_type : string) : res (list Z * ndarray) :=
  let! cfg := dict_get DATA_TYPES data_type in
  let! st := scan_lines (dt_pattern cfg) scan_start (file_lines text) in
  let! m := np_array (data_matrix st) in
  Ok (steps st, m).

(** ** data_analyzer.calculate_stats

    The reductions run along axis 0: the rows are combined one after the
    other, column by column.  [np.add.reduce] starts from its identity [0.0],
    [np.maximum.reduce], which has none, from the first row. *)

Definition np_abs (m : ndarray) : ndarray := map (map abs) m.

(** [np.maximum]: the larger operand, and a NaN when one operand is NaN. *)
Definition np_maximum (a b : float) : float :=
  if (b <=? a)%float || is_nan a then a else b.

Definition ncols (m : ndarray) : nat :=
  match m with r :: _ => length r | [] => 0%nat end.

Definition np_max0 (m : ndarray) : res (list float) :=
  match m with
  | [] => Raise (ValueError "zero-size array to reduction operation maximum which has no identity")
  | r :: rs => Ok (fold_left (zip_with np_maximum) rs r)
  end.

Definition np_sum0 (m : ndarray) : list float :=
  fold_left (zip_with add) m (repeat 0%float (ncols m)).

(** The number of rows, as the float the sums are divided by. *)
Definition row_count (m : ndarray) : float :=
  SF2Prim (round_Z (Z.of_nat (length m)) 0).

Definition np_mean0 (m : ndarray) : list float :=
  map (fun x => (x / row_count m)%float) (np_sum0 m).

(** [np.std]: the mean of the squared deviations from the mean, divided by
    the number of rows ([ddof = 0]), then the square root. *)
Definition np_std0 (m : ndarray) : list float :=
  let arrmean := np_mean0 m in
  let x := map (fun row => zip_with sub row arrmean) m in
  let x := map (map (fun d => (d * d)%float)) x in
  map (fun v => sqrt (v / row_count m)%float) (np_sum0 x).

Record stats : Type := {
  max_abs : list float;
  mean : list float;
  mean_abs : list float;
  std : list float
}.

Definition calculate_stats (m : ndarray) : res stats :=
  let! mx := np_max0 (np_abs m) in
  Ok {| max_abs := mx;
        mean := np_mean0 m;
        mean_abs := np_mean0 (np_abs m);
        std := np_std0 m |}.

(** Python's [==] on two lists of floats. *)
Fixpoint list_eqb (a b : list float) : bool :=
  match a, b with
  | [], [] => true
  | x :: a', y :: b' => (x =? y)%float && list_eqb a' b'
  | _, _ => false
  end.

(** ** utils/logger.py: the values a log holds

    An observation is a Python number, a list of observations, a NumPy array
    or a torch tensor; [nested] is the content of an array or a tensor. *)

Inductive nested : Type :=
| Num (x : float)
| Dim (items : list nested).

Inductive value : Type :=
| VFloat (x : float)
| VInt (n : Z)
| VList (items : list value)
| VArray (a : nested)
| VTensor (a : nested).

(** [a.tolist()]: nested lists of Python floats. *)
Fixpoint tolist (a : nested) : value :=
  match a with
  | Num x => VFloat x
  | Dim items => VList (map tolist items)
  end.

(** The one element of an array that has one element. *)
Fixpoint only_element (a : nested) : option float :=
  match a with
  | Num x => Some x
  | Dim [a'] => only_element a'
  | Dim _ => None
  end.

(** [hasattr(v, "cpu")] *)
Definition has_cpu (v : value) : bool :=
  match v with VTensor _ => true | _ => false end.

(** [isinstance(v, np.ndarray)] *)
Definition is_ndarray (v : value) : bool :=
  match v with VArray _ => true | _ => false end.

(** [v.cpu().numpy().tolist()] *)
Definition cpu_numpy_tolist (v : value) : res value :=
  match v with
  | VTensor a => Ok (tolist a)
  | _ => Raise (AttributeError "object has no attribute 'cpu'")
  end.

(** [v.tolist()], a method of arrays and of tensors. *)
Definition tolist_method (v : value) : res value :=
  match v with
  | VArray a | VTensor a => Ok (tolist a)
  | _ => Raise (AttributeError "object has no attribute 'tolist'")
  end.

(** [v.item()], a method of arrays and of tensors. *)
Definition item (v : value) : res float :=
  match v with
  | VArray a =>
      match only_element a with
      | Some x => Ok x
      | None => Raise (ValueError "can only convert an array of size 1 to a Python scalar")
      end
  | VTensor a =>
      match only_element a with
      | Some x => Ok x
      | None => Raise (RuntimeError "a Tensor with several elements cannot be converted to Scalar")
      end
  | _ => Raise (AttributeError "object has no attribute 'item'")
  end.

(** ** utils/logger.py: Logger *)

Record Logger : Type := {
  state_log : gmap string (list value);
  rew_log : gmap string (list value);
  dt : float;
  num_episodes : Z
}.

(** [Logger(dt)] *)
Definition Logger_init (dt0 : float) : Logger :=
  {| state_log := ∅; rew_log := ∅; dt := dt0; num_episodes := 0 |}.

(** [log[key]] on a [defaultdict(list)]: the series, created empty when absent. *)
Definition series (log : gmap string (list value)) (key : string) : list value :=
  default [] (log !! key).

Definition log_state (self : Logger) (key : string) (v : value) : Logger :=
  {| state_log := <[key := series (state_log self) key ++ [v]]> (state_log self);
     rew_log := rew_log self;
     dt := dt self;
     num_episodes := num_episodes self |}.

Definition log_states (self : Logger) (d : list (string * value)) : Logger :=
  fold_left (fun lg kv => log_state lg (fst kv) (snd kv)) d self.

(** [value.item() * num_episodes], a float times an int. *)
Definition scaled_reward (v : value) (n : Z) : res float :=
  let! x := item v in
  match float_of_int n with
  | Some k => Ok (x * k)%float
  | None => Raise (OverflowError "int too large to convert to float")
  end.

(** The loop of [log_rewards] over [dict.items()].  [self.rew_log[key]] is
    looked up, and so created, before the appended value is computed. *)
Fixpoint log_rewards_loop (rl : gmap string (list value)) (d : list (string * value)) (n : Z)
  : gmap string (list value) * res unit :=
  match d with
  | [] => (rl, Ok tt)
  | (key, v) :: d' =>
      if contains (s "rew") (s key) then
        let rl1 := <[key := series rl key]> rl in
        match scaled_reward v n with
        | Ok r => log_rewards_loop (<[key := series rl1 key ++ [VFloat r]]> rl1) d' n
        | Raise e => (rl1, Raise e)
        end
      else log_rewards_loop rl d' n
  end.

Definition log_rewards (self : Logger) (d : list (string * value)) (n : Z) : Logger * res unit :=
  match log_rewards_loop (rew_log self) d n with
  | (rl, Ok _) =>
      ({| state_log := state_log self; rew_log := rl; dt := dt self;
          num_episodes := num_episodes self + n |}, Ok tt)
  | (rl, Raise e) =>
      ({| state_log := state_log self; rew_log := rl; dt := dt self;
          num_episodes := num_episodes self |}, Raise e)
  end.

Definition reset (self : Logger) : Logger :=
  {| state_log := ∅; rew_log := ∅; dt := dt self; num_episodes := num_episodes self |}.

(** ** utils/logger.py: saving and loading

    A JSON file holds a document of numbers and arrays, a pickle file holds
    the Python objects themselves; how either is spelled out in bytes is not
    modelled.  [json.dump] refuses arrays and tensors, and Python (from
    version 3.11 on) refuses to write an integer of more than 4300 decimal
    digits. *)

Inductive json : Type :=
| JFloat (x : float)
| JInt (n : Z)
| JArray (items : list json).

(** [sys.get_int_max_str_digits()] *)
Definition int_max_str_digits : Z := 4300.

(** Whether [str(n)] has at most [int_max_str_digits] digits. *)
Definition int_str_ok (n : Z) : bool := Z.abs n <? 10 ^ int_max_str_digits.

Arguments int_str_ok : simpl never.

Fixpoint to_json (v : value) : res json :=
  match v with
  | VFloat x => Ok (JFloat x)
  | VInt n =>
      if int_str_ok n then Ok (JInt n)
      else Raise (ValueError "Exceeds the limit (4300 digits) for integer string conversion")
  | VList items => let! js := res_map to_json items in Ok (JArray js)
  | VArray _ | VTensor _ => Raise (TypeError "Object is not JSON serializable")
  end.

Fixpoint of_json (j : json) : value :=
  match j with
  | JFloat x => VFloat x
  | JInt n => VInt n
  | JArray items => VList (map of_json items)
  end.

(** A loop over [log.items()] that builds a new dictionary and may raise. *)
Definition res_map_log {A B : Type} (f : list A -> res (list B))
    (log : gmap string (list A)) : res (gmap string (list B)) :=
  let! kvs := res_map (fun kv => let! b := f (snd kv) in Ok (fst kv, b)) (map_to_list log) in
  Ok (list_to_map kvs).

(** The dictionary [data] of [save] and [load]. *)
Record document (A : Type) : Type := {
  doc_dt : float;
  doc_state_log : gmap string (list A);
  doc_rew_log : gmap string (list A);
  doc_num_episodes : Z
}.

Arguments doc_dt {A} _.
Arguments doc_state_log {A} _.
Arguments doc_rew_log {A} _.
Arguments doc_num_episodes {A} _.

Inductive file : Type :=
| JsonText (d : document json)
| JsonTruncated
| PickleBytes (d : document value).

(** The file system: the directories made so far, and the files by path.
    Paths are compared as they are spelled; a directory can be made unless
    a file has its path.  What else the operating system may refuse, a
    parent that is a file or rights that are missing, is not modelled: the
    properties of [save] below are about calls that ended as they say. *)
Record store : Type := {
  dirs : gset string;
  files : gmap string file
}.

(** [Path(p).mkdir(parents=True, exist_ok=True)] *)
Definition mkdir (fs : store) (p : string) : store * res unit :=
  match files fs !! p with
  | Some _ => (fs, Raise (FileExistsError p))
  | None => ({| dirs := {[ p ]} ∪ dirs fs; files := files fs |}, Ok tt)
  end.

Definition write_file (fs : store) (p : string) (f : file) : store :=
  {| dirs := dirs fs; files := <[p := f]> (files fs) |}.

Fixpoint split_path_from (cur p : str) : list str :=
  match p with
  | [] => [rev cur]
  | c :: p' =>
      if chr_eqb c "/" then rev cur :: split_path_from [] p'
      else split_path_from (c :: cur) p'
  end.

Definition is_dot_or_empty (c : str) : bool :=
  match c with
  | [] => true
  | [d] => chr_eqb d "."
  | _ => false
  end.

(** [Path(p).name]: the last component, empty and [.] components apart. *)
Definition path_name (p : str) : str :=
  default [] (last (List.filter (fun c => negb (is_dot_or_empty c)) (split_path_from [] p))).

(** [name.rfind(c)], counting from [i]. *)
Fixpoint rfind_from (i : nat) (c : ascii) (name : str) (found : option nat) : option nat :=
  match name with
  | [] => found
  | a :: name' => rfind_from (S i) c name' (if chr_eqb a c then Some i else found)
  end.

(** [Path(p).suffix]: the last component from its last dot on, when that
    dot is neither its first nor its last character. *)
Definition path_suffix (p : str) : str :=
  let name := path_name p in
  match rfind_from 0 "." name None with
  | Some i => if (0 <? i)%nat && (i <? length name - 1)%nat then drop i name else []
  | None => []
  end.

(** [Path(filepath).suffix[1:]] *)
Definition path_format (filepath : string) : string :=
  string_of_list_ascii (drop 1 (path_suffix (s filepath))).

(** A path as [pathlib] holds it on POSIX: a root and the components.  The
    root is empty, [/] or, for exactly two leading slashes, [//]. *)
Fixpoint leading_seps (p : str) : nat :=
  match p with
  | c :: p' => if chr_eqb c "/" then S (leading_seps p') else 0%nat
  | [] => 0%nat
  end.

Definition path_root (p : str) : str :=
  match leading_seps p with
  | 0%nat => []
  | 2%nat => s "//"
  | _ => s "/"
  end.

(** The components, empty and [.] components apart. *)
Definition path_parts (p : str) : list str :=
  List.filter (fun c => negb (is_dot_or_empty c)) (split_path_from [] p).

Fixpoint join_parts (parts : list str) : str :=
  match parts with
  | [] => []
  | c :: rest =>
      match rest with
      | [] => c
      | _ :: _ => c ++ "/"%char :: join_parts rest
      end
  end.

(** [str(path)]: the empty path is written [.]. *)
Definition path_str (root : str) (parts : list str) : str :=
  match root, parts with
  | [], [] => s "."
  | _, _ => root ++ join_parts parts
  end.

(** [str(Path(a) / b)]: a rooted [b] replaces [a]. *)
Definition path_join (a b : str) : str :=
  match path_root b with
  | [] => path_str (path_root a) (path_parts a ++ path_parts b)
  | _ :: _ => path_str (path_root b) (path_parts b)
  end.

(** [Path(save_dir) / f"{filename}.{format}"] *)
Definition save_path (save_dir filename format : string) : string :=
  string_of_list_ascii (path_join (s save_dir) (s (filename +:+ "." +:+ format))).

(** [_convert_log] on one series: the first element decides how all are
    converted. *)
Definition convert_series (values : list value) : res (list value) :=
  match values with
  | v0 :: _ =>
      if has_cpu v0 then res_map cpu_numpy_tolist values
      else if is_ndarray v0 then res_map tolist_method values
      else Ok values
  | [] => Ok values
  end.

Definition _convert_log (log : gmap string (list value)) : res (gmap string (list value)) :=
  res_map_log convert_series log.

Definition json_dump (data : document value) : res (document json) :=
  let! sl := res_map_log (res_map to_json) (doc_state_log data) in
  let! rl := res_map_log (res_map to_json) (doc_rew_log data) in
  if int_str_ok (doc_num_episodes data) then
    Ok {| doc_dt := doc_dt data; doc_state_log := sl; doc_rew_log := rl;
          doc_num_episodes := doc_num_episodes data |}
  else Raise (ValueError "Exceeds the limit (4300 digits) for integer string conversion").

Definition json_load (d : document json) : document value :=
  {| doc_dt := doc_dt d;
     doc_state_log := fmap (map of_json) (doc_state_log d);
     doc_rew_log := fmap (map of_json) (doc_rew_log d);
     doc_num_episodes := doc_num_episodes d |}.

(** [self.save(filename, format, save_dir)]: the file system afterwards, and
    how the call ended. *)
Definition save (self : Logger) (fs : store) (filename format save_dir : string)
  : store * res unit :=
  match mkdir fs save_dir with
  | (fs1, Raise e) => (fs1, Raise e)
  | (fs1, Ok _) =>
      let path := save_path save_dir filename format in
      match _convert_log (state_log self) with
      | Raise e => (fs1, Raise e)
      | Ok sl =>
          match _convert_log (rew_log self) with
          | Raise e => (fs1, Raise e)
          | Ok rl =>
              let data := {| doc_dt := dt self; doc_state_log := sl; doc_rew_log := rl;
                             doc_num_episodes := num_episodes self |} in
              if String.eqb format "json" then
                match json_dump data with
                | Ok d => (write_file fs1 path (JsonText d), Ok tt)
                | Raise e => (write_file fs1 path JsonTruncated, Raise e)
                end
              else if String.eqb format "pkl" then
                (write_file fs1 path (PickleBytes data), Ok tt)
              else (fs1, Raise (ValueError ("Unsupported format: " +:+ format)))
          end
      end
  end.

Definition restore (data : document value) : Logger :=
  {| state_log := doc_state_log data; rew_log := doc_rew_log data;
     dt := doc_dt data; num_episodes := doc_num_episodes data |}.

(** [self.load(filepath)]: the logger afterwards, and how the call ended. *)
Definition load (self : Logger) (fs : store) (filepath : string) : Logger * res unit :=
  let format := path_format filepath in
  if String.eqb format "json" then
    match files fs !! filepath with
    | None => (self, Raise (FileNotFoundError filepath))
    | Some (JsonText d) => (restore (json_load d), Ok tt)
    | Some _ => (self, Raise (ValueError "JSONDecodeError"))
    end
  else if String.eqb format "pkl" then
    match files fs !! filepath with
    | None => (self, Raise (FileNotFoundError filepath))
    | Some (PickleBytes d) => (restore d, Ok tt)
    | Some _ => (self, Raise (UnpicklingError "invalid load key"))
    end
  else (self, Raise (ValueError ("Unsupported format: " +:+ format))).

(** ** data_analyzer: the table

    What is printed is modelled by its content: the table by its title and
    the numbers of its rows.  The formatted text is not modelled. *)

Inductive failure : Type :=
| Exn (e : exn)
| IndexError (msg : string).

Inductive outcome (A : Type) : Type :=
| Done (a : A)
| Failed (f : failure).

Arguments Done {A} a.
Arguments Failed {A} f.

(** What [print] writes: the head of a table (its title, the names of the
    columns and the rule below them), a row of a table, the message that a
    figure was saved, and the warning that a data type has no data. *)
Inductive output : Type :=
| Title (label : string)
| Row (idx : nat) (mx mn ma sd : float)
| Saved (label file : string)
| NoData (name : string).

(** The loop of [print_statistics]: a row is printed once its four numbers
    have been looked up. *)
Fixpoint print_rows (st : stats) (idxs : list nat) : list output * option failure :=
  match idxs with
  | [] => ([], None)
  | idx :: rest =>
      match max_abs st !! idx, mean st !! idx, mean_abs st !! idx, std st !! idx with
      | Some a, Some b, Some c, Some d =>
          let '(out, r) := print_rows st rest in (Row idx a b c d :: out, r)
      | _, _, _, _ => ([], Some (IndexError "list index out of range"))
      end
  end.

(** [print_statistics(stats, data_type)]: what is printed, and how the call
    ended. *)
Definition print_statistics (st : stats) (data_type : string) : list output * option failure :=
  match dict_get DATA_TYPES data_type with
  | Raise e => ([], Some (Exn e))
  | Ok cfg =>
      let '(out, r) := print_rows st (seq 0 (length (max_abs st))) in
      (Title (dt_label cfg) :: out, r)
  end.

(** ** data_analyzer: the log file

    [parse_log_data] above is the function on the text of a file that was
    opened and read to its end, with [int] taken as total.  In a call on a
    file name, [open] may raise, reading may raise after some lines, and
    [int] refuses (from Python 3.11 on) a numeral of more than 4300
    digits. *)

(** What reading a file gave: the text of the lines read, and the
    exception that ended the reading, if one did. *)
Record reading : Type := {
  text_read : str;
  read_error : option exn
}.

(** A file read to its end. *)
Definition whole (text : str) : reading := {| text_read := text; read_error := None |}.

(** Whether [int] accepts the step number of the line, if it has one. *)
Definition step_digits_ok (line : str) : bool :=
  match search step_pattern line with
  | Some g => Z.of_nat (length g) <=? int_max_str_digits
  | None => true
  end.

(** The body of [for line in f], with the limit of [int]. *)
Definition read_line (data_pattern : pattern) (st : scan) (line : str) : res scan :=
  if step_digits_ok line then scan_line data_pattern st line
  else Raise (ValueError "Exceeds the limit (4300 digits) for integer string conversion").

Fixpoint read_lines (data_pattern : pattern) (st : scan) (lines : list str) : res scan :=
  match lines with
  | [] => Ok st
  | line :: lines' =>
      let! st' := read_line data_pattern st line in
      read_lines data_pattern st' lines'
  end.

(** [parse_log_data(log_file, data_type)], on what [open(log_file, 'r')]
    gives: the pattern is looked up before the file is opened. *)
Definition parse_log_file (opened : res reading) (data_type : string)
  : res (list Z * ndarray) :=
  let! cfg := dict_get DATA_TYPES data_type in
  let! r := opened in
  let! st := read_lines (dt_pattern cfg) scan_start (file_lines (text_read r)) in
  match read_error r with
  | Some e => Raise e
  | None => let! m := np_array (data_matrix st) in Ok (steps st, m)
  end.

(** ** data_analyzer: the figure and [main]

    [print], [pathlib] and [matplotlib] are outside the program.  The calls
    into them are recorded in order, and what they do is left open: an
    [environment] tells, from the calls made so far, whether the next one
    raises. *)

Inductive line_style : Type := RedDashed | BlueDashDot.

Inductive call : Type :=
| Print (o : output)
| MakeDir (dir : string)
| Figure
| Plot (xs : list Z) (ys : list float) (joint : nat)
| AxHLine (y : float) (style : line_style)
| SetTitle (label : string)
| XLabel
| YLabel (label : string)
| Legend
| Grid
| TightLayout
| SaveFig (file : string)
| Close
| Resolve (dir : string).

Definition environment : Type := list call -> call -> option exn.

(** A computation that makes calls: from the calls made so far to the
    calls made in the end, and how it ended. *)
Definition run (A : Type) : Type := list call -> list call * outcome A.

Definition run_ret {A : Type} (a : A) : run A := fun h => (h, Done a).

Definition run_fail {A : Type} (f : failure) : run A := fun h => (h, Failed f).

Definition run_bind {A B : Type} (m : run A) (k : A -> run B) : run B :=
  fun h =>
    match m h with
    | (h', Done a) => k a h'
    | (h', Failed f) => (h', Failed f)
    end.

Notation "'do!' x ':=' m 'in' k" := (run_bind m (fun x => k))
  (at level 10, x name, m at level 100, k at level 200).

(** One call into the environment. *)
Definition invoke (env : environment) (c : call) : run unit :=
  fun h =>
    (h ++ [c], match env h c with Some e => Failed (Exn e) | None => Done tt end).

Definition lift_res {A : Type} (m : res A) : run A :=
  match m with Ok a => run_ret a | Raise e => run_fail (Exn e) end.

(** [l[i]] *)
Definition index {A : Type} (l : list A) (i : nat) : run A :=
  match l !! i with
  | Some a => run_ret a
  | None => run_fail (IndexError "list index out of range")
  end.

Fixpoint print_all (env : environment) (outs : list output) : run unit :=
  match outs with
  | [] => run_ret tt
  | o :: rest => do! _ := invoke env (Print o) in print_all env rest
  end.

(** A function that prints, run in the environment: what it prints goes
    through [print], line by line, before its own failure, if it has one. *)
Definition printing (env : environment) (r : list output * option failure) : run unit :=
  do! _ := print_all env (fst r) in
  match snd r with
  | Some f => run_fail f
  | None => run_ret tt
  end.

(** [data_matrix[:, j]] *)
Definition column (m : ndarray) (j : nat) : list float := omap (fun row => row !! j) m.

(** [data_matrix.shape[1]]: an array without rows has one dimension only. *)
Definition shape1 (m : ndarray) : run nat :=
  match m with
  | [] => run_fail (IndexError "tuple index out of range")
  | r :: _ => run_ret (length r)
  end.

(** The loop of [plot_data_curves]. *)
Fixpoint plot_joints (env : environment) (stp : list Z) (m : ndarray) (st : stats)
    (joints : list nat) : run unit :=
  match joints with
  | [] => run_ret tt
  | j :: rest =>
      do! _ := invoke env (Plot stp (column m j) j) in
      do! mx := index (max_abs st) j in
      do! _ := invoke env (AxHLine mx RedDashed) in
      do! ma := index (mean_abs st) j in
      do! _ := invoke env (AxHLine ma BlueDashDot) in
      plot_joints env stp m st rest
  end.

(** [plot_data_curves(steps, data_matrix, stats, data_type)] *)
Definition plot_data_curves (env : environment) (stp : list Z) (m : ndarray) (st : stats)
    (data_type : string) : run unit :=
  do! _ := invoke env (MakeDir "output") in
  do! _ := invoke env Figure in
  do! cfg := lift_res (dict_get DATA_TYPES data_type) in
  do! n := shape1 m in
  do! _ := plot_joints env stp m st (seq 0 n) in
  do! _ := invoke env (SetTitle (dt_label cfg)) in
  do! _ := invoke env XLabel in
  do! _ := invoke env (YLabel (dt_label cfg)) in
  do! _ := invoke env Legend in
  do! _ := invoke env Grid in
  do! _ := invoke env TightLayout in
  do! _ := invoke env
             (SaveFig (string_of_list_ascii
                         (path_join (s "output") (s (data_type +:+ "_analysis.png"))))) in
  do! _ := invoke env Close in
  do! _ := invoke env (Resolve "output") in
  invoke env (Print (Saved (dt_label cfg) (data_type +:+ "_analysis.png"))).

(** [data_matrix.size] *)
Definition np_size (m : ndarray) : nat := (length m * ncols m)%nat.

(** The block of [main] for one data type, on what opening the log file
    gives; [name] is the word of its warning. *)
Definition main_for (env : environment) (opened : res reading) (data_type name : string)
  : run unit :=
  do! parsed := lift_res (parse_log_file opened data_type) in
  if (0 <? np_size (snd parsed))%nat then
    do! st := lift_res (calculate_stats (snd parsed)) in
    do! _ := printing env (print_statistics st data_type) in
    plot_data_curves env (fst parsed) (snd parsed) st data_type
  else invoke env (Print (NoData name)).

(** [main(log_file)]: the file is opened twice, once for each data type. *)
Definition main (env : environment) (first second : res reading) : run unit :=
  do! _ := main_for env first "torque" "Torque" in
  main_for env second "action" "Action".

(** ** Notions used to state the properties *)

(** The text of a log file with the given lines, each ended by a newline. *)
Definition text_of_lines (ls : list string) : str :=
  concat (map (fun l => s l ++ ["010"%char]) ls).

(** The offsets, counted from [i], at which [x] occurs in [l]. *)
Fixpoint occurrences_from (i : nat) (x l : str) : list nat :=
  (if startswith x l then [i] else [])
  ++ match l with [] => [] | _ :: l' => occurrences_from (S i) x l' end.

Definition occurrences (x l : str) : list nat := occurrences_from 0 x l.

(** A token that [float] refuses. *)
Definition malformed (tok : str) : Prop := is_ok (py_float tok) = false.

(** The line declares a step. *)
Definition declares_step (line : str) : Prop := is_Some (search step_pattern line).

(** A value as plain nested lists of numbers: arrays and tensors, wherever
    they stand, replaced by their lists. *)
Fixpoint normalize (v : value) : value :=
  match v with
  | VFloat x => VFloat x
  | VInt n => VInt n
  | VList items => VList (map normalize items)
  | VArray a | VTensor a => tolist a
  end.

(** The value holds no array and no tensor. *)
Fixpoint is_plain (v : value) : bool :=
  match v with
  | VFloat _ | VInt _ => true
  | VList items => forallb is_plain items
  | VArray _ | VTensor _ => false
  end.

(** A series of one kind: tensors only, arrays only, or plain values only. *)
Definition uniform_series (values : list value) : bool :=
  forallb has_cpu values || forallb is_ndarray values || forallb is_plain values.

(** The entry of a dictionary passed to [log_rewards] is named as a reward. *)
Definition reward_entry (kv : string * value) : bool := contains (s "rew") (s (fst kv)).

(** The call of [plt.plot] gets as many steps as values. *)
Definition plot_ok (c : call) : bool :=
  match c with
  | Plot xs ys _ => (length xs =? length ys)%nat
  | _ => true
  end.

(** The failure is the exception that the last call raised. *)
Definition raised_by (env : environment) (h : list call) (f : failure) : Prop :=
  exists h0 c e, h = h0 ++ [c] /\ env h0 c = Some e /\ f = Exn e.

(** [m] keeps the calls of [plt.plot] well formed, and fails only as
    [allowed] says or where a call raised. *)
Definition fails_only {A : Type} (env : environment) (allowed : failure -> Prop)
    (m : run A) : Prop :=
  forall h h' r,
    m h = (h', r) ->
    Forall (fun c => plot_ok c = true) h ->
    Forall (fun c => plot_ok c = true) h'
    /\ (forall f, r = Failed f -> allowed f \/ raised_by env h' f).

Definition is_done {A : Type} (r : outcome A) : bool :=
  match r with Done _ => true | Failed _ => false end.

(** The file system before anything is written. *)
Definition empty_store : store := {| dirs := ∅; files := ∅ |}.

(** The lines from the first one that declares a step on. *)
Fixpoint from_first_step (lines : list str) : list str :=
  match lines with
  | [] => []
  | line :: rest =>
      match search step_pattern line with
      | Some _ => lines
      | None => from_first_step rest
      end
  end.

(** The pattern matches somewhere in the line. *)
Definition matches (p : pattern) (line : str) : bool :=
  match search p line with Some _ => true | None => false end.

(** The row of the table for the channel [idx]. *)
Definition table_row (st : stats) (idx : nat) : output :=
  Row idx (default 0%float (max_abs st !! idx)) (default 0%float (mean st !! idx))
      (default 0%float (mean_abs st !! idx)) (default 0%float (std st !! idx)).

(** The rewards that [log_rewards] appends to the series [key]: one for each
    entry of that name, in the order of the dictionary, when the name holds
    [rew] and the value can be scaled. *)
Definition appended_rewards (d : list (string * value)) (n : Z) (key : string) : list value :=
  flat_map (fun kv =>
              if reward_entry kv && String.eqb (fst kv) key then
                match scaled_reward (snd kv) n with
                | Ok r => [VFloat r]
                | Raise _ => []
                end
              else []) d.

(** The observations that [log_states] appends to the series [key]. *)
Definition appended_states (d : list (string * value)) (key : string) : list value :=
  map snd (List.filter (fun kv => String.eqb (fst kv) key) d).

(** * Properties of the log analyser *)

(** ** Strings and patterns *)

Lemma chr_eqb_eq (a b : ascii) : chr_eqb a b = true <-> a = b.
Proof. unfold chr_eqb. apply Ascii.eqb_eq. Qed.

Lemma startswith_app (pre l : str) : startswith pre (pre ++ l) = true.
Proof.
  induction pre as [|a pre IH]; simpl; [reflexivity|].
  rewrite IH, andb_true_r. apply chr_eqb_eq. reflexivity.
Qed.

Lemma startswith_inv (pre l : str) :
  startswith pre l = true -> l = pre ++ after pre l.
Proof.
  revert l. induction pre as [|a pre IH]; intros l H.
  - reflexivity.
  - destruct l as [|b l]; simpl in H; [discriminate|].
    apply andb_true_iff in H as [Hab H]. apply chr_eqb_eq in Hab. subst b.
    unfold after in *. simpl. f_equal. apply IH, H.
Qed.

Lemma after_app (pre l : str) : after pre (pre ++ l) = l.
Proof. unfold after. apply drop_app_length. Qed.

Lemma search_none_at (p : pattern) (l : str) :
  search p l = None <-> forall i : nat, match_at p (drop i l) = None.
Proof.
  induction l as [|a l IH]; simpl.
  - split.
    + intros H i. rewrite drop_nil. destruct (match_at p []); congruence.
    + intros H. specialize (H 0%nat). simpl in H. rewrite H. reflexivity.
  - destruct (match_at p (a :: l)) eqn:E.
    + split; [discriminate|]. intros H. specialize (H 0%nat). simpl in H. congruence.
    + rewrite IH. split.
      * intros H [|i]; [exact E | apply H].
      * intros H i. apply (H (S i)).
Qed.

Lemma search_some_at (p : pattern) (l : str) (g : str) :
  search p l = Some g -> exists i : nat, match_at p (drop i l) = Some g.
Proof.
  induction l as [|a l IH]; simpl.
  - destruct (match_at p []) eqn:E; [|discriminate].
    intros [= <-]. exists 0%nat. exact E.
  - destruct (match_at p (a :: l)) eqn:E.
    + intros [= <-]. exists 0%nat. exact E.
    + intros H. destruct (IH H) as [i Hi]. exists (S i). exact Hi.
Qed.

(** What the captured group of a match is made of. *)
Lemma group_plus_class (c : ascii -> bool) (tr l g : str) :
  group_plus c tr l = Some g ->
  g <> [] /\ Forall (fun a => c a = true) g /\ exists r, l = g ++ tr ++ r.
Proof.
  revert g. induction l as [|a l IH]; intros g; simpl; [discriminate|].
  destruct (c a) eqn:Ca; [|discriminate].
  destruct (group_plus c tr l) as [g'|] eqn:E.
  - intros [= <-]. destruct (IH g' eq_refl) as (_ & Hall & r & ->).
    split; [discriminate|]. split; [constructor; assumption|].
    exists r. reflexivity.
  - destruct (startswith tr l) eqn:S; [|discriminate].
    intros [= <-]. split; [discriminate|]. split; [repeat constructor; assumption|].
    exists (after tr l). simpl. f_equal. apply startswith_inv, S.
Qed.

(** A run that meets a character outside the class before any closing
    bracket gives no group. *)
Lemma group_plus_outside (c : ascii -> bool) (b1 : str) (x : ascii) (rest : str) :
  c x = false ->
  Forall (fun a => a <> "]"%char) (b1 ++ [x]) ->
  group_plus c (s "]") (b1 ++ x :: rest) = None.
Proof.
  intros Cx. induction b1 as [|a b1 IH]; cbn [group_plus app]; intros Hb.
  - rewrite Cx. reflexivity.
  - inversion Hb as [|? ? Ha Hb']; subst.
    destruct (c a); [|reflexivity].
    rewrite (IH Hb').
    assert (Hhd : exists y r, b1 ++ x :: rest = y :: r /\ y <> "]"%char).
    { destruct b1 as [|y b1]; simpl in *.
      - exists x, rest. split; [reflexivity|]. inversion Hb'; assumption.
      - exists y, (b1 ++ x :: rest). split; [reflexivity|]. inversion Hb'; assumption. }
    destruct Hhd as (y & r & -> & Hy). simpl.
    destruct (chr_eqb "]" y) eqn:E; [|reflexivity].
    apply chr_eqb_eq in E. congruence.
Qed.

Lemma occurrences_from_at (i : nat) (x l : str) (j : nat) :
  x <> [] ->
  startswith x (drop j l) = true -> (i + j)%nat ∈ occurrences_from i x l.
Proof.
  intros Hx. revert i j. induction l as [|a l IH]; intros i j H.
  - rewrite drop_nil in H. destruct x; [congruence | discriminate].
  - destruct j as [|j]; simpl in H; cbn [occurrences_from].
    + rewrite H, Nat.add_0_r. set_solver.
    + apply elem_of_app. right.
      replace (i + S j)%nat with (S i + j)%nat by lia. apply IH, H.
Qed.

Lemma single_occurrence (x l : str) (k j : nat) :
  x <> [] -> occurrences x l = [k] ->
  startswith x (drop j l) = true -> j = k.
Proof.
  intros Hx Hocc H.
  pose proof (occurrences_from_at 0 x l j Hx H) as Hin.
  unfold occurrences in Hocc. rewrite Hocc in Hin.
  apply list_elem_of_singleton in Hin. exact Hin.
Qed.

(** ** Tokens *)

Lemma py_float_raises (tok : str) (e : exn) :
  py_float tok = Raise e -> exists msg, e = ValueError msg.
Proof.
  unfold py_float.
  destruct (match strip tok with
            | [] => (false, strip tok)
            | c :: t' => if chr_eqb c "-" then (true, t')
                         else if chr_eqb c "+" then (false, t') else (false, strip tok)
            end) as [neg body].
  destruct (span_digits body) as [ip r1].
  destruct (match r1 with
            | [] => ([], r1)
            | c :: r1' => if chr_eqb c "." then span_digits r1' else ([], r1)
            end) as [fp r2].
  destruct r2; [destruct (ip ++ fp)|]; intros [=]; eauto.
Qed.

Lemma res_map_raises {A B : Type} (f : A -> res B) (l : list A) (a : A) :
  a ∈ l -> is_ok (f a) = false -> is_ok (res_map f l) = false.
Proof.
  induction l as [|b l IH]; intros Hin Ha.
  - inversion Hin.
  - simpl. apply elem_of_cons in Hin as [-> | Hin].
    + destruct (f b); [discriminate | reflexivity].
    + destruct (f b); [|reflexivity]. simpl.
      specialize (IH Hin Ha). destruct (res_map f l); [discriminate | reflexivity].
Qed.

Lemma res_map_raised {A B : Type} (f : A -> res B) (l : list A) (e : exn) :
  res_map f l = Raise e -> exists a, a ∈ l /\ f a = Raise e.
Proof.
  induction l as [|b l IH]; simpl; [discriminate|].
  destruct (f b) eqn:Fb; simpl.
  - destruct (res_map f l) eqn:R; simpl; [discriminate|].
    intros [= <-]. destruct (IH eq_refl) as (a' & Ha & Hf).
    exists a'. split; [right; exact Ha | exact Hf].
  - intros [= <-]. exists b. split; [left | exact Fb].
Qed.

Lemma res_map_length {A B : Type} (f : A -> res B) (l : list A) (bs : list B) :
  res_map f l = Ok bs -> length bs = length l.
Proof.
  revert bs. induction l as [|a l IH]; simpl; intros bs.
  - intros [= <-]. reflexivity.
  - destruct (f a); simpl; [|discriminate].
    destruct (res_map f l); simpl; [|discriminate].
    intros [= <-]. simpl. f_equal. apply IH. reflexivity.
Qed.

(** ** The scan over the lines *)

Lemma scan_line_raises (p : pattern) (st : scan) (line : str) (e : exn) :
  scan_line p st line = Raise e -> exists msg, e = ValueError msg.
Proof.
  unfold scan_line.
  destruct (search p line) as [g|]; [|discriminate].
  destruct (match search step_pattern line with
            | Some g0 => Some (py_int g0)
            | None => current_step st
            end) as [c|]; [|discriminate].
  destruct (res_map py_float (split_comma_space g)) as [vs|e'] eqn:R; simpl; [discriminate|].
  intros [= <-]. apply res_map_raised in R as (tok & _ & Htok).
  eapply py_float_raises, Htok.
Qed.

Lemma scan_lines_raises (p : pattern) (lines : list str) (st : scan) (e : exn) :
  scan_lines p st lines = Raise e -> exists msg, e = ValueError msg.
Proof.
  revert st. induction lines as [|line lines IH]; intros st; simpl; [discriminate|].
  destruct (scan_line p st line) as [st'|e'] eqn:E; simpl.
  - apply IH.
  - intros [= <-]. eapply scan_line_raises, E.
Qed.

Lemma scan_lines_app (p : pattern) (l1 l2 : list str) (st : scan) :
  scan_lines p st (l1 ++ l2) =
  (let! st' := scan_lines p st l1 in scan_lines p st' l2).
Proof.
  revert st. induction l1 as [|line l1 IH]; intros st; simpl; [reflexivity|].
  destruct (scan_line p st line); simpl; [apply IH | reflexivity].
Qed.

Lemma scan_line_lengths (p : pattern) (st st' : scan) (line : str) :
  scan_line p st line = Ok st' ->
  length (steps st) = length (data_matrix st) ->
  length (steps st') = length (data_matrix st').
Proof.
  unfold scan_line. intros H Hlen.
  destruct (search p line) as [g|].
  - destruct (match search step_pattern line with
              | Some g0 => Some (py_int g0)
              | None => current_step st
              end) as [c|].
    + destruct (res_map py_float (split_comma_space g)); simpl in H; [|discriminate].
      injection H as <-. simpl. rewrite !length_app. simpl. lia.
    + injection H as <-. exact Hlen.
  - injection H as <-. exact Hlen.
Qed.

Lemma scan_lines_lengths (p : pattern) (lines : list str) (st st' : scan) :
  scan_lines p st lines = Ok st' ->
  length (steps st) = length (data_matrix st) ->
  length (steps st') = length (data_matrix st').
Proof.
  revert st. induction lines as [|line lines IH]; intros st; simpl.
  - intros [= <-]. trivial.
  - destruct (scan_line p st line) as [st1|] eqn:E; simpl; [|discriminate].
    intros H Hlen. apply (IH st1 H). eapply scan_line_lengths; eassumption.
Qed.

Lemma scan_line_step_known (p : pattern) (st st' : scan) (line : str) :
  scan_line p st line = Ok st' ->
  is_Some (current_step st) \/ declares_step line ->
  is_Some (current_step st').
Proof.
  unfold scan_line, declares_step. intros H Hk.
  assert (Hcur : is_Some (match search step_pattern line with
                          | Some g0 => Some (py_int g0)
                          | None => current_step st
                          end)).
  { destruct (search step_pattern line); [eauto|].
    destruct Hk as [Hk|Hk]; [exact Hk | destruct Hk; discriminate]. }
  destruct (match search step_pattern line with
            | Some g0 => Some (py_int g0)
            | None => current_step st
            end) as [c|]; [|destruct Hcur; discriminate].
  destruct (search p line) as [g|].
  - destruct (res_map py_float (split_comma_space g)); simpl in H; [|discriminate].
    injection H as <-. simpl. eauto.
  - injection H as <-. simpl. eauto.
Qed.

Lemma scan_lines_step_known (p : pattern) (lines : list str) (st st' : scan) :
  scan_lines p st lines = Ok st' ->
  is_Some (current_step st) \/ Exists declares_step lines ->
  is_Some (current_step st').
Proof.
  revert st. induction lines as [|line lines IH]; intros st; simpl.
  - intros [= <-] [Hk|Hk]; [exact Hk | inversion Hk].
  - destruct (scan_line p st line) as [st1|] eqn:E; simpl; [|discriminate].
    intros H Hk. apply (IH st1 H).
    destruct Hk as [Hk|Hk].
    + left. eapply scan_line_step_known; eauto.
    + apply Exists_cons in Hk as [Hk|Hk]; [|right; exact Hk].
      left. eapply scan_line_step_known; eauto.
Qed.

(** A data line with a malformed token, read while a step is known, raises. *)
Lemma scan_line_malformed (p : pattern) (st : scan) (line g tok : str) :
  is_Some (current_step st) \/ declares_step line ->
  search p line = Some g ->
  tok ∈ split_comma_space g -> malformed tok ->
  is_ok (scan_line p st line) = false.
Proof.
  unfold scan_line, declares_step, malformed. intros Hk Hg Hin Hbad.
  rewrite Hg.
  destruct (search step_pattern line) as [g0|].
  - pose proof (res_map_raises py_float _ _ Hin Hbad) as R.
    destruct (res_map py_float (split_comma_space g)); [discriminate | reflexivity].
  - destruct Hk as [Hk|Hk]; [|destruct Hk; discriminate].
    destruct (current_step st); [|destruct Hk; discriminate].
    pose proof (res_map_raises py_float _ _ Hin Hbad) as R.
    destruct (res_map py_float (split_comma_space g)); [discriminate | reflexivity].
Qed.

(** ** [np.array] *)

Lemma np_array_rectangular (rows : list (list float)) :
  rectangular rows -> np_array rows = Ok rows.
Proof.
  destruct rows as [|r rs]; intros Hrect; simpl; [reflexivity|].
  assert (H : forallb (fun r' => (length r' =? length r)%nat) rs = true).
  { assert (Hin : forall r', r' ∈ rs -> length r' = length r).
    { intros r' Hr'. apply Hrect; [right; exact Hr' | left]. }
    clear Hrect. induction rs as [|r1 rs IH]; simpl; [reflexivity|].
    rewrite (proj2 (Nat.eqb_eq _ _) (Hin r1 ltac:(left))). simpl.
    apply IH. intros r' Hr'. apply Hin. right. exact Hr'. }
  rewrite H. reflexivity.
Qed.

Lemma np_array_ok (rows : list (list float)) (m : ndarray) :
  np_array rows = Ok m -> m = rows /\ rectangular m.
Proof.
  destruct rows as [|r rs]; simpl.
  - intros [= <-]. split; [reflexivity|]. intros r1 r2 H1. inversion H1.
  - destruct (forallb (fun r' => (length r' =? length r)%nat) rs) eqn:H; [|discriminate].
    intros [= <-]. split; [reflexivity|].
    assert (Hin : forall r', r' ∈ r :: rs -> length r' = length r).
    { intros r' Hr'. apply elem_of_cons in Hr' as [-> | Hr']; [reflexivity|].
      clear -H Hr'. induction rs as [|r1 rs IH]; [inversion Hr'|].
      simpl in H. apply andb_true_iff in H as [H1 H2].
      apply elem_of_cons in Hr' as [-> | Hr']; [apply Nat.eqb_eq, H1 | apply IH; assumption]. }
    intros r1 r2 H1 H2. rewrite (Hin r1 H1), (Hin r2 H2). reflexivity.
Qed.

Lemma np_array_ragged (rows : list (list float)) :
  ~ rectangular rows -> exists msg, np_array rows = Raise (ValueError msg).
Proof.
  intros Hn. destruct (np_array rows) as [m|e] eqn:E.
  - apply np_array_ok in E as [-> Hr]. contradiction.
  - destruct rows as [|r rs]; simpl in E; [discriminate|].
    destruct (forallb _ rs); [discriminate|]. injection E as <-. eauto.
Qed.

(** ** The claims on the analyser *)

Lemma data_types_cases (kind : string) (cfg : data_type_config) :
  dict_get DATA_TYPES kind = Ok cfg ->
  cls (dt_pattern cfg) = number_list_char /\ trail (dt_pattern cfg) = s "]"
  /\ lead (dt_pattern cfg) <> [].
Proof.
  unfold DATA_TYPES. cbn [dict_get].
  destruct (String.eqb "torque" kind).
  - intros [= <-]. repeat split. discriminate.
  - destruct (String.eqb "action" kind).
    + intros [= <-]. repeat split. discriminate.
    + discriminate.
Qed.

(** C1.  The log of four lines [Step 0:], [Output Torque: [1.0, -2.0]],
    [Step 1:], [Output Torque: [3.0, -4.0]], read for the kind [torque],
    gives the steps [0, 1] and the matrix [[1.0, -2.0], [3.0, -4.0]]; the
    statistics of that matrix are max_abs [3.0, 4.0], mean [2.0, -3.0],
    mean_abs [2.0, 3.0] and std [1.0, 1.0]. *)
Theorem example_log_statistics :
  (let! r := parse_log_data
               (text_of_lines ["Step 0:"; "Output Torque: [1.0, -2.0]";
                               "Step 1:"; "Output Torque: [3.0, -4.0]"]%string)
               "torque" in
   let! st := calculate_stats (snd r) in
   Ok (r, st))
  = Ok (([0; 1], [[1; -2]; [3; -4]]%float),
        {| max_abs := [3; 4]%float; mean := [2; -3]%float;
           mean_abs := [2; 3]%float; std := [1; 1]%float |}).
Proof.
  assert (Hparse : parse_log_data
            (text_of_lines ["Step 0:"; "Output Torque: [1.0, -2.0]";
                            "Step 1:"; "Output Torque: [3.0, -4.0]"]%string)
            "torque" = Ok ([0; 1], [[1; -2]; [3; -4]]%float)).
  { vm_compute. reflexivity. }
  rewrite Hparse. cbn [res_bind snd].
  assert (Hstats : calculate_stats [[1; -2]; [3; -4]]%float
            = Ok {| max_abs := [3; 4]%float; mean := [2; -3]%float;
                    mean_abs := [2; 3]%float; std := [1; 1]%float |}).
  { vm_compute. reflexivity. }
  rewrite Hstats. reflexivity.
Qed.

(** C2.  Whenever [parse_log_data] returns, the steps and the matrix have
    the same length and all rows of the matrix have one length; and when the
    rows read from the data lines differ in length, it raises a
    [ValueError] instead of returning. *)
Theorem parse_log_data_shape (text : str) (data_type : string) :
  (forall (stp : list Z) (m : ndarray),
      parse_log_data text data_type = Ok (stp, m) ->
      length stp = length m /\ rectangular m)
  /\ (forall (cfg : data_type_config) (st : scan),
      dict_get DATA_TYPES data_type = Ok cfg ->
      scan_lines (dt_pattern cfg) scan_start (file_lines text) = Ok st ->
      ~ rectangular (data_matrix st) ->
      exists msg, parse_log_data text data_type = Raise (ValueError msg)).
Proof.
  unfold parse_log_data. split.
  - intros stp m.
    destruct (dict_get DATA_TYPES data_type) as [cfg|]; simpl; [|discriminate].
    destruct (scan_lines (dt_pattern cfg) scan_start (file_lines text)) as [st|] eqn:E;
      simpl; [|discriminate].
    destruct (np_array (data_matrix st)) as [m'|] eqn:A; simpl; [|discriminate].
    intros [= <- <-]. apply np_array_ok in A as [-> Hr]. split; [|exact Hr].
    eapply scan_lines_lengths; [exact E | reflexivity].
  - intros cfg st Hcfg Hscan Hn.
    rewrite Hcfg. cbn [res_bind]. rewrite Hscan. cbn [res_bind].
    destruct (np_array_ragged _ Hn) as [msg ->]. exists msg. reflexivity.
Qed.

(** C5, as the code has it.  A data line whose captured list holds a token
    that [float] refuses makes [parse_log_data] raise a [ValueError], and so
    return nothing, provided a step is known when the line is read: the line
    itself or a line before it declares one. *)
Theorem malformed_token_aborts (text : str) (data_type : string) (cfg : data_type_config)
    (before rest : list str) (line g tok : str) :
  dict_get DATA_TYPES data_type = Ok cfg ->
  file_lines text = before ++ line :: rest ->
  search (dt_pattern cfg) line = Some g ->
  tok ∈ split_comma_space g ->
  malformed tok ->
  Exists declares_step (before ++ [line]) ->
  exists msg, parse_log_data text data_type = Raise (ValueError msg).
Proof.
  intros Hcfg Hlines Hg Htok Hbad Hstep.
  unfold parse_log_data. rewrite Hcfg, Hlines. cbn [res_bind].
  rewrite scan_lines_app.
  destruct (scan_lines (dt_pattern cfg) scan_start before) as [st1|e] eqn:E1; cbn [res_bind].
  - cbn [scan_lines].
    assert (Hk : is_Some (current_step st1) \/ declares_step line).
    { apply Exists_app in Hstep as [Hb|Hl].
      - left. eapply scan_lines_step_known; [exact E1 | right; exact Hb].
      - right. apply Exists_cons in Hl as [Hl|Hl]; [exact Hl | inversion Hl]. }
    pose proof (scan_line_malformed _ st1 _ _ _ Hk Hg Htok Hbad) as R.
    destruct (scan_line (dt_pattern cfg) st1 line) as [st2|e] eqn:E2; [discriminate|].
    cbn [res_bind]. apply scan_line_raises in E2 as [msg ->]. eauto.
  - apply scan_lines_raises in E1 as [msg ->]. eauto.
Qed.


(** C10, as the code has it.  A line in which the label occurs once, whose
    list, the text between the label and the next closing bracket, holds a
    character outside digits, [-], [.], [,] and the space, and whose step
    number, if it declares one, is within the limit of [int], is not
    matched by the data pattern and is skipped: no record, no error. *)
Theorem unlisted_character_skips_line (data_type : string) (cfg : data_type_config)
    (pre body post : str) (st : scan) :
  dict_get DATA_TYPES data_type = Ok cfg ->
  (exists c, c ∈ body /\ number_list_char c = false) ->
  "]"%char ∉ body ->
  occurrences (lead (dt_pattern cfg))
    (pre ++ lead (dt_pattern cfg) ++ body ++ s "]" ++ post) = [length pre] ->
  step_digits_ok (pre ++ lead (dt_pattern cfg) ++ body ++ s "]" ++ post) = true ->
  search (dt_pattern cfg) (pre ++ lead (dt_pattern cfg) ++ body ++ s "]" ++ post) = None
  /\ exists st',
      read_line (dt_pattern cfg) st (pre ++ lead (dt_pattern cfg) ++ body ++ s "]" ++ post)
        = Ok st'
      /\ steps st' = steps st /\ data_matrix st' = data_matrix st.
Proof.
  intros Hcfg (c & Hc & Hout) Hclose Hocc Hdigits.
  destruct (data_types_cases _ _ Hcfg) as (Hcls & Htrail & Hlead).
  set (p := dt_pattern cfg) in *.
  set (line := pre ++ lead p ++ body ++ s "]" ++ post) in *.
  assert (Hnone : search p line = None).
  { apply search_none_at. intros i. unfold match_at.
    destruct (startswith (lead p) (drop i line)) eqn:S; [|reflexivity].
    pose proof (single_occurrence _ _ _ _ Hlead Hocc S) as ->.
    unfold line. rewrite drop_app_length, after_app, Hcls, Htrail.
    apply list_elem_of_split in Hc as (b1 & b2 & ->).
    rewrite <- app_assoc. cbn [app].
    apply group_plus_outside; [exact Hout|].
    apply Forall_forall. intros a Ha Heq. subst a.
    apply Hclose. rewrite elem_of_app in Ha. rewrite elem_of_app.
    destruct Ha as [Ha|Ha]; [left; exact Ha|].
    right. apply list_elem_of_singleton in Ha. rewrite <- Ha. left. }
  split; [exact Hnone|].
  unfold read_line. fold line. rewrite Hdigits.
  unfold scan_line. rewrite Hnone. eexists. split; [reflexivity|]. split; reflexivity.
Qed.

(** The claimed behaviour on concrete logs. *)

Lemma parse_log_data_shape_witness :
  (length [0; 1] = length [[1; -2]; [3; -4]]%float
   /\ rectangular [[1; -2]; [3; -4]]%float)
  /\ exists msg,
      parse_log_data
        (text_of_lines ["Step 0:"; "Output Torque: [1.0]"; "Output Torque: [1.0, 2.0]"]%string)
        "torque" = Raise (ValueError msg).
Proof.
  split.
  - apply (proj1 (parse_log_data_shape
                    (text_of_lines ["Step 0:"; "Output Torque: [1.0, -2.0]";
                                    "Step 1:"; "Output Torque: [3.0, -4.0]"]%string)
                    "torque")).
    vm_compute. reflexivity.
  - apply (proj2 (parse_log_data_shape _ "torque")
             {| dt_pattern := torque_pattern; dt_label := "Torque (Nm)" |}
             {| current_step := Some 0; steps := [0; 0];
                data_matrix := [[1]; [1; 2]]%float |}).
    + reflexivity.
    + vm_compute. reflexivity.
    + intros H. specialize (H [1]%float [1; 2]%float). simpl in H.
      assert (E : 1%nat = 2%nat) by (apply H; [left | right; left]).
      discriminate E.
Defined.

Lemma malformed_token_aborts_witness :
  exists msg,
    parse_log_data (text_of_lines ["Step 3:"; "Output Torque: [1.0, --2.0]"]%string) "torque"
    = Raise (ValueError msg).
Proof.
  apply (malformed_token_aborts _ "torque"
           {| dt_pattern := torque_pattern; dt_label := "Torque (Nm)" |}
           [s "Step 3:" ++ ["010"%char]] []
           (s "Output Torque: [1.0, --2.0]" ++ ["010"%char])
           (s "1.0, --2.0") (s "--2.0")).
  - reflexivity.
  - vm_compute. reflexivity.
  - vm_compute. reflexivity.
  - right. left.
  - vm_compute. reflexivity.
  - left. exists (s "3"). vm_compute. reflexivity.
Defined.

(** C5 as stated fails: a data line with a malformed token that is read
    before any step is declared is skipped, and the call returns. *)
Lemma malformed_token_before_step_returns :
  search torque_pattern (s "Output Torque: [1.0, --2.0]" ++ ["010"%char]) = Some (s "1.0, --2.0")
  /\ s "--2.0" ∈ split_comma_space (s "1.0, --2.0")
  /\ malformed (s "--2.0")
  /\ parse_log_data (text_of_lines ["Output Torque: [1.0, --2.0]"; "Step 3:"]%string) "torque"
     = Ok ([], []).
Proof.
  split; [vm_compute; reflexivity|].
  split; [right; left|].
  split; vm_compute; reflexivity.
Qed.


Lemma unlisted_character_skips_line_witness :
  search torque_pattern (s "Output Torque: [1e-3, 2.0]" ++ ["010"%char]) = None
  /\ exists st',
      read_line torque_pattern
        {| current_step := Some 4; steps := [4]; data_matrix := [[0.5]%float] |}
        (s "Output Torque: [1e-3, 2.0]" ++ ["010"%char]) = Ok st'
      /\ steps st' = [4] /\ data_matrix st' = [[0.5]%float].
Proof.
  apply (unlisted_character_skips_line "torque"
           {| dt_pattern := torque_pattern; dt_label := "Torque (Nm)" |}
           [] (s "1e-3, 2.0") ["010"%char]
           {| current_step := Some 4; steps := [4]; data_matrix := [[0.5]%float] |}).
  - reflexivity.
  - exists "e"%char. split; [right; left | reflexivity].
  - intros H. cbn in H. repeat (apply elem_of_cons in H as [H|H]; [discriminate H|]).
    inversion H.
  - vm_compute. reflexivity.
  - vm_compute. reflexivity.
Defined.

(** C10 as stated fails: [search] goes on after the list that does not
    match.  In a line with the label twice, the first list holding [1e-3]
    and the second being well formed, the pattern matches at the second
    label and the line gives a record.  And a line that is not matched is
    not always passed over in silence: when it declares a step number of
    4301 digits, [int] raises on it. *)
Lemma unlisted_character_line_recorded :
  (exists c, c ∈ s "1e-3" /\ number_list_char c = false)
  /\ ("]"%char ∉ s "1e-3")
  /\ s "Output Torque: [1e-3] Output Torque: [2.0]"
     = [] ++ lead torque_pattern ++ s "1e-3" ++ s "]" ++ s " Output Torque: [2.0]"
  /\ search torque_pattern (s "Output Torque: [1e-3] Output Torque: [2.0]")
     = Some (s "2.0")
  /\ parse_log_file
       (Ok (whole (text_of_lines
                     ["Step 0:"; "Output Torque: [1e-3] Output Torque: [2.0]"]%string)))
       "torque"
     = Ok ([0], [[2]]%float)
  /\ search torque_pattern
       (s "Step " ++ repeat "1"%char 4301 ++ s ": Output Torque: [1e-3]") = None
  /\ exists msg,
      read_line torque_pattern scan_start
        (s "Step " ++ repeat "1"%char 4301 ++ s ": Output Torque: [1e-3]")
      = Raise (ValueError msg).
Proof.
  split; [exists "e"%char; split; [right; left | reflexivity]|].
  split.
  { intros H. cbn in H. repeat (apply elem_of_cons in H as [H|H]; [discriminate H|]).
    inversion H. }
  split; [reflexivity|].
  split; [vm_compute; reflexivity|].
  split; [vm_compute; reflexivity|].
  split; [vm_compute; reflexivity|].
  eexists. vm_compute. reflexivity.
Qed.

(** * Properties of the statistics *)

(** ** Binary64 facts *)

Lemma Prim2SF_one : Prim2SF 1%float = S754_finite false 4503599627370496 (-52).
Proof. vm_compute. reflexivity. Qed.

Lemma div_eucl_exact (a b : Z) : 0 < b -> Z.div_eucl (a * b) b = (a, 0).
Proof.
  intros Hb.
  pose proof (Z.div_mul a b ltac:(lia)) as Hq.
  pose proof (Z.mod_mul a b ltac:(lia)) as Hr.
  unfold Z.div, Z.modulo in Hq, Hr.
  destruct (Z.div_eucl (a * b) b) as [q r]. subst. reflexivity.
Qed.


Lemma bounded_inv (mx : positive) (ex : Z) :
  bounded prec emax mx ex = true ->
  Z.max (Zpos (digits2_pos mx) + ex - 53) (-1074) = ex /\ ex <= 971.
Proof.
  unfold bounded, canonical_mantissa, fexp, emin. change prec with 53. change emax with 1024.
  intros H. apply andb_prop in H as [Hc Hb].
  apply Z.eqb_eq in Hc. apply Z.leb_le in Hb. lia.
Qed.

Lemma shr_fexp_exact (mx : positive) (ex : Z) :
  bounded prec emax mx ex = true ->
  shr_fexp prec emax (Zpos mx) ex loc_Exact
  = ({| shr_m := Zpos mx; shr_r := false; shr_s := false |}, ex).
Proof.
  intros H. apply bounded_inv in H as [Hc Hb].
  unfold shr_fexp. cbn [Zdigits2].
  replace (fexp prec emax (Zpos (digits2_pos mx) + ex) - ex) with 0
    by (unfold fexp, emin; change prec with 53; change emax with 1024; lia).
  reflexivity.
Qed.

Lemma shr_fexp_double (mx : positive) (ex : Z) :
  bounded prec emax mx ex = true ->
  shr_fexp prec emax (Zpos mx~0) (ex - 1) loc_Exact
  = ({| shr_m := Zpos mx; shr_r := false; shr_s := false |}, ex).
Proof.
  intros H. apply bounded_inv in H as [Hc Hb].
  unfold shr_fexp. cbn [Zdigits2 digits2_pos].
  replace (fexp prec emax (Zpos (Pos.succ (digits2_pos mx)) + (ex - 1)) - (ex - 1)) with 1
    by (unfold fexp, emin; change prec with 53; change emax with 1024; lia).
  cbn [shr shr_record_of_loc iter_pos shr_1 orb]. f_equal. lia.
Qed.

Lemma round_after_shift (sx : bool) (mx : positive) (ex : Z) (m : Z) (e : Z) :
  bounded prec emax mx ex = true ->
  shr_fexp prec emax m e loc_Exact
  = ({| shr_m := Zpos mx; shr_r := false; shr_s := false |}, ex) ->
  binary_round_aux prec emax sx m e loc_Exact = S754_finite sx mx ex.
Proof.
  intros H Hs. unfold binary_round_aux. rewrite Hs.
  cbn [shr_m loc_of_shr_record round_nearest_even].
  rewrite (shr_fexp_exact _ _ H). cbn [shr_m].
  apply bounded_inv in H as [Hc Hb].
  change (emax - prec) with 971.
  rewrite (proj2 (Z.leb_le ex 971) Hb). reflexivity.
Qed.

Lemma SFdiv_one (x : spec_float) :
  valid_binary x = true ->
  SFdiv prec emax x (S754_finite false 4503599627370496 (-52)) = x.
Proof.
  destruct x as [sx|sx| |sx mx ex]; intros Hv.
  - destruct sx; reflexivity.
  - destruct sx; reflexivity.
  - reflexivity.
  - cbn [valid_binary] in Hv. pose proof (bounded_inv _ _ Hv) as [Hc Hb].
    cbn [SFdiv]. unfold SFdiv_core_binary.
    change (Zdigits2 (Zpos 4503599627370496)) with 53.
    change (Zdigits2 (Zpos mx)) with (Zpos (digits2_pos mx)).
    assert (He : Z.min (fexp prec emax (Zpos (digits2_pos mx) + ex - (53 + -52))) (ex - -52) = ex
                 \/ Z.min (fexp prec emax (Zpos (digits2_pos mx) + ex - (53 + -52))) (ex - -52) = ex - 1)
      by (unfold fexp, emin; change prec with 53; change emax with 1024; lia).
    rewrite xorb_false_r.
    destruct He as [-> | ->].
    + replace (ex - -52 - ex) with 52 by lia.
      rewrite Z.shiftl_mul_pow2 by lia. change (2 ^ 52) with 4503599627370496.
      rewrite div_eucl_exact by lia.
      change (new_location 4503599627370496 0) with loc_Exact.
      apply (round_after_shift _ _ _ _ _ Hv), shr_fexp_exact, Hv.
    + replace (ex - -52 - (ex - 1)) with 53 by lia.
      rewrite Z.shiftl_mul_pow2 by lia.
      replace (Zpos mx * 2 ^ 53) with (Zpos mx~0 * 4503599627370496) by lia.
      rewrite div_eucl_exact by lia.
      change (new_location 4503599627370496 0) with loc_Exact.
      apply (round_after_shift _ _ _ _ _ Hv), shr_fexp_double, Hv.
Qed.

Lemma div_one (x : float) : (x / 1)%float = x.
Proof.
  apply Prim2SF_inj. rewrite FloatAxioms.div_spec, Prim2SF_one.
  apply SFdiv_one, Prim2SF_valid.
Qed.

Lemma Prim2SF_zero : Prim2SF 0%float = S754_zero false.
Proof. vm_compute. reflexivity. Qed.

Lemma finite_cases (x : float) :
  is_finite x = true ->
  (exists sx, Prim2SF x = S754_zero sx) \/ (exists sx mx ex, Prim2SF x = S754_finite sx mx ex).
Proof.
  unfold is_finite, is_nan, is_infinity.
  rewrite !FloatAxioms.eqb_spec, FloatAxioms.abs_spec.
  destruct (Prim2SF x) as [sx|sx| |sx mx ex] eqn:E; intros H.
  - left. eauto.
  - exfalso. destruct sx; vm_compute in H; discriminate.
  - exfalso. vm_compute in H. discriminate.
  - right. eauto.
Qed.

Lemma SFsub_diag (sx : bool) (mx : positive) (ex : Z) :
  SFsub prec emax (S754_finite sx mx ex) (S754_finite sx mx ex) = S754_zero false.
Proof.
  cbn [SFsub]. rewrite Z.min_id. unfold shl_align. rewrite Z.sub_diag. reflexivity.
Qed.

Lemma add_zero_finite (x : float) (sx : bool) (mx : positive) (ex : Z) :
  Prim2SF x = S754_finite sx mx ex -> (0 + x)%float = x.
Proof.
  intros E. apply Prim2SF_inj. rewrite FloatAxioms.add_spec, Prim2SF_zero, E. reflexivity.
Qed.

Lemma deviation_square (x : float) :
  is_finite x = true ->
  Prim2SF ((x - (0 + x)) * (x - (0 + x)))%float = S754_zero false.
Proof.
  intros H. rewrite FloatAxioms.mul_spec, FloatAxioms.sub_spec, FloatAxioms.add_spec, Prim2SF_zero.
  destruct (finite_cases x H) as [[sx ->] | (sx & mx & ex & ->)].
  - destruct sx; reflexivity.
  - cbn [SF64add SFadd]. unfold SF64sub. rewrite SFsub_diag. reflexivity.
Qed.

Lemma std_single (x : float) :
  is_finite x = true ->
  sqrt ((0 + (x - (0 + x) / 1) * (x - (0 + x) / 1)) / 1)%float = 0%float.
Proof.
  intros H. rewrite !div_one. apply Prim2SF_inj.
  rewrite FloatAxioms.sqrt_spec, FloatAxioms.add_spec, (deviation_square x H). reflexivity.
Qed.

Lemma add_zero_abs (x : float) : (0 + abs x)%float = abs x.
Proof.
  apply Prim2SF_inj. rewrite FloatAxioms.add_spec, FloatAxioms.abs_spec, Prim2SF_zero.
  destruct (Prim2SF x) as [sx|sx| |sx mx ex]; reflexivity.
Qed.

Lemma add_zero_nonneg (x : float) :
  (0 <=? x)%float = true -> (0 + x)%float = (0 + abs x)%float.
Proof.
  rewrite FloatAxioms.leb_spec, Prim2SF_zero. intros H.
  apply Prim2SF_inj. rewrite !FloatAxioms.add_spec, FloatAxioms.abs_spec, Prim2SF_zero.
  destruct (Prim2SF x) as [sx|sx| |sx mx ex]; try reflexivity.
  - destruct sx; reflexivity.
  - destruct sx; [discriminate H | reflexivity].
  - destruct sx; [discriminate H | reflexivity].
Qed.

Lemma SFcompare_refl_finite (sx : bool) (mx : positive) (ex : Z) :
  SFcompare (S754_finite sx mx ex) (S754_finite sx mx ex) = Some Eq.
Proof.
  cbn [SFcompare]. rewrite Z.compare_refl.
  change (PosDef.Pos.compare_cont Eq mx mx) with (Pos.compare mx mx).
  rewrite Pos.compare_refl. destruct sx; reflexivity.
Qed.

Lemma add_zero_eqb (x : float) :
  is_finite x = true -> ((0 + x) =? x)%float = true.
Proof.
  intros H. rewrite FloatAxioms.eqb_spec, FloatAxioms.add_spec, Prim2SF_zero.
  destruct (finite_cases x H) as [[sx ->] | (sx & mx & ex & ->)].
  - destruct sx; reflexivity.
  - cbn [SF64add SFadd]. unfold SFeqb. rewrite SFcompare_refl_finite. reflexivity.
Qed.

(** ** A matrix of one row *)

Lemma row_count_one (row : list float) : row_count [row] = 1%float.
Proof. vm_compute. reflexivity. Qed.

Lemma sum_from_zero (row : list float) :
  zip_with add (repeat 0%float (length row)) row = map (fun x => (0 + x)%float) row.
Proof. induction row as [|x row IH]; simpl; [reflexivity | f_equal; exact IH]. Qed.

Lemma np_sum0_single (row : list float) :
  np_sum0 [row] = map (fun x => (0 + x)%float) row.
Proof. unfold np_sum0. simpl. apply sum_from_zero. Qed.

Lemma np_mean0_single (row : list float) :
  np_mean0 [row] = map (fun x => (0 + x)%float) row.
Proof.
  unfold np_mean0. rewrite np_sum0_single, row_count_one, map_map.
  apply map_ext. intros x. apply div_one.
Qed.

Lemma zip_with_map_r (f : float -> float -> float) (g : float -> float) (row : list float) :
  zip_with f row (map g row) = map (fun x => f x (g x)) row.
Proof. induction row as [|x row IH]; simpl; [reflexivity | f_equal; exact IH]. Qed.

Lemma np_std0_single (row : list float) :
  np_std0 [row]
  = map (fun x => sqrt ((0 + (x - (0 + x) / 1) * (x - (0 + x) / 1)) / 1)%float) row.
Proof.
  unfold np_std0, np_mean0. rewrite np_sum0_single, row_count_one.
  cbn [map]. rewrite map_map, zip_with_map_r, map_map, np_sum0_single, !map_map.
  reflexivity.
Qed.

Lemma list_eqb_map (f : float -> float) (row : list float) :
  Forall (fun x => (f x =? x)%float = true) row -> list_eqb (map f row) row = true.
Proof.
  induction 1 as [|x row Hx _ IH]; simpl; [reflexivity|]. rewrite Hx, IH. reflexivity.
Qed.

Lemma map_ext_on (P : float -> Prop) (f g : float -> float) (row : list float) :
  Forall P row -> (forall x, P x -> f x = g x) -> map f row = map g row.
Proof.
  intros H Hfg. induction H as [|x r Hx _ IH]; simpl; [reflexivity|].
  rewrite (Hfg x Hx), IH. reflexivity.
Qed.

(** C7, as the code has it.  For a matrix of one row of finite numbers the
    standard deviation of every channel is 0, max_abs and mean_abs are the
    absolute values of the row and the mean is the row itself; so mean and
    mean_abs agree when no entry is negative.  The standard deviation
    divides by the number of rows: for the two rows [1.0] and [3.0] it is
    1.0. *)
Theorem single_row_statistics (row : list float) :
  Forall (fun x => is_finite x = true) row ->
  (exists st,
      calculate_stats [row] = Ok st
      /\ std st = map (fun _ => 0%float) row
      /\ max_abs st = map abs row
      /\ mean_abs st = map abs row
      /\ list_eqb (mean st) row = true
      /\ (Forall (fun x => (0 <=? x)%float = true) row -> mean st = mean_abs st))
  /\ np_std0 [[1]; [3]]%float = [1]%float.
Proof.
  intros Hfin. split; [|vm_compute; reflexivity].
  unfold calculate_stats. cbn [np_abs map np_max0 fold_left res_bind].
  eexists. split; [reflexivity|]. cbn [std max_abs mean_abs mean].
  split; [|split; [reflexivity|split; [|split]]].
  - rewrite np_std0_single. apply (map_ext_on (fun x => is_finite x = true)).
    + exact Hfin.
    + intros x Hx. apply std_single, Hx.
  - rewrite np_mean0_single, map_map. apply map_ext. intros x. apply add_zero_abs.
  - rewrite np_mean0_single. apply list_eqb_map.
    eapply Forall_impl; [exact Hfin|]. intros x Hx. apply add_zero_eqb, Hx.
  - intros Hpos. rewrite !np_mean0_single, map_map.
    apply (map_ext_on (fun x => (0 <=? x)%float = true)); [exact Hpos|].
    intros x Hx. apply add_zero_nonneg, Hx.
Qed.

Lemma single_row_statistics_witness :
  (exists st,
      calculate_stats [[2; 0.5]%float] = Ok st
      /\ std st = [0; 0]%float
      /\ max_abs st = [2; 0.5]%float
      /\ mean_abs st = [2; 0.5]%float
      /\ list_eqb (mean st) [2; 0.5]%float = true
      /\ (Forall (fun x => (0 <=? x)%float = true) [2; 0.5]%float -> mean st = mean_abs st))
  /\ np_std0 [[1]; [3]]%float = [1]%float.
Proof.
  apply (single_row_statistics [2; 0.5]%float).
  repeat constructor.
Defined.

(** C7 as stated fails twice: a row of negative numbers has one sign, yet
    its mean is the row and its mean_abs the absolute values; and a row
    that holds an infinity has no standard deviation (NaN). *)
Lemma negative_row_mean_differs :
  (exists st,
      calculate_stats [[-2; -3]%float] = Ok st
      /\ mean st = [-2; -3]%float /\ mean_abs st = [2; 3]%float
      /\ list_eqb (mean st) (mean_abs st) = false)
  /\ (exists st,
      calculate_stats [[infinity]] = Ok st
      /\ std st = [nan] /\ list_eqb (std st) [0%float] = false).
Proof.
  split; eexists; (split; [vm_compute; reflexivity|]); repeat split.
Qed.

(** * Properties of the episode logger *)

(** ** Recording *)

Lemma series_insert (log : gmap string (list value)) (key : string) (vs : list value) :
  series (<[key := vs]> log) key = vs.
Proof. unfold series. rewrite lookup_insert_eq. reflexivity. Qed.

Lemma log_rewards_loop_filter (d : list (string * value)) (n : Z)
    (rl : gmap string (list value)) :
  log_rewards_loop rl d n = log_rewards_loop rl (List.filter reward_entry d) n.
Proof.
  revert rl. induction d as [|[key v] d IH]; intros rl; [reflexivity|].
  cbn [List.filter log_rewards_loop]. unfold reward_entry at 1. cbn [fst].
  destruct (contains (s "rew") (s key)) eqn:E.
  - cbn [log_rewards_loop]. rewrite E.
    destruct (scaled_reward v n); [apply IH | reflexivity].
  - apply IH.
Qed.

(** C3, as the code has it.  The value of a reward must offer [item()]: a
    tensor or an array of one element.  With such a value holding 2.0 under
    the name [total_rew], an episode count of 3 and 5 episodes so far, 6.0
    is appended to the series [total_rew], nothing else changes in the
    reward log, and the number of episodes becomes 8.  Entries whose name
    does not contain [rew] are ignored: the call does what it does on the
    other entries alone. *)
Theorem log_rewards_total_rew (self : Logger) (v : value)
    (d : list (string * value)) (n : Z) :
  num_episodes self = 5 ->
  item v = Ok 2%float ->
  log_rewards self [("total_rew"%string, v)] 3
  = ({| state_log := state_log self;
        rew_log := <["total_rew"%string :=
                       series (rew_log self) "total_rew" ++ [VFloat 6]]> (rew_log self);
        dt := dt self;
        num_episodes := 8 |}, Ok tt)
  /\ log_rewards self d n = log_rewards self (List.filter reward_entry d) n.
Proof.
  intros Hn Hv. split.
  - unfold log_rewards. cbn [log_rewards_loop].
    change (contains (s "rew") (s "total_rew")) with true. cbv iota.
    unfold scaled_reward. rewrite Hv. cbn [res_bind].
    change (float_of_int 3) with (Some 3%float). cbv iota.
    change (2 * 3)%float with 6%float.
    rewrite series_insert, insert_insert_eq, Hn. reflexivity.
  - unfold log_rewards. rewrite log_rewards_loop_filter. reflexivity.
Qed.

Lemma log_rewards_total_rew_witness :
  log_rewards
    {| state_log := ∅; rew_log := {[ "total_rew"%string := [VFloat 1.5] ]};
       dt := 0.5; num_episodes := 5 |}
    [("total_rew"%string, VTensor (Num 2))] 3
  = ({| state_log := ∅;
        rew_log := <["total_rew"%string :=
                       series {[ "total_rew"%string := [VFloat 1.5] ]} "total_rew"
                       ++ [VFloat 6]]> {[ "total_rew"%string := [VFloat 1.5] ]};
        dt := 0.5;
        num_episodes := 8 |}, Ok tt)
  /\ log_rewards
       {| state_log := ∅; rew_log := {[ "total_rew"%string := [VFloat 1.5] ]};
          dt := 0.5; num_episodes := 5 |}
       [("dof_pos"%string, VFloat 1); ("rew_x"%string, VArray (Num 1))] 2
     = log_rewards
         {| state_log := ∅; rew_log := {[ "total_rew"%string := [VFloat 1.5] ]};
            dt := 0.5; num_episodes := 5 |}
         (List.filter reward_entry
            [("dof_pos"%string, VFloat 1); ("rew_x"%string, VArray (Num 1))]) 2.
Proof.
  exact (log_rewards_total_rew
           {| state_log := ∅; rew_log := {[ "total_rew"%string := [VFloat 1.5] ]};
              dt := 0.5; num_episodes := 5 |}
           (VTensor (Num 2))
           [("dof_pos"%string, VFloat 1); ("rew_x"%string, VArray (Num 1))] 2
           eq_refl eq_refl).
Defined.

(** C3 as stated fails: a plain float has no [item()], so the call raises
    before anything is appended and before the episodes are counted. *)
Lemma log_rewards_plain_float_raises :
  exists lg e,
    log_rewards
      {| state_log := ∅; rew_log := ∅; dt := 0.5; num_episodes := 5 |}
      [("total_rew"%string, VFloat 2)] 3 = (lg, Raise (AttributeError e))
    /\ rew_log lg = {[ "total_rew"%string := [] ]}
    /\ num_episodes lg = 5.
Proof.
  eexists _, _. split; [reflexivity|]. split; [|reflexivity].
  cbn [rew_log]. unfold series. rewrite lookup_empty. cbn [default].
  apply insert_empty.
Qed.

(** C9.  [reset] empties both logs and leaves [dt] and the number of
    episodes as they were; a [log_state] after it leaves a state log that
    holds the new series only. *)
Theorem reset_then_log_state (self : Logger) (key : string) (v : value) :
  reset self
  = {| state_log := ∅; rew_log := ∅; dt := dt self; num_episodes := num_episodes self |}
  /\ log_state (reset self) key v
     = {| state_log := {[ key := [v] ]}; rew_log := ∅;
          dt := dt self; num_episodes := num_episodes self |}
  /\ forall k : string, k <> key -> state_log (log_state (reset self) key v) !! k = None.
Proof.
  split; [reflexivity|]. split.
  - unfold log_state, reset. cbn [state_log rew_log dt num_episodes].
    unfold series. rewrite lookup_empty. cbn [default app].
    rewrite insert_empty. reflexivity.
  - intros k Hk. unfold log_state, reset. cbn [state_log].
    rewrite lookup_insert_ne by congruence. apply lookup_empty.
Qed.

(** ** Values *)

Lemma nested_forall (P : nested -> Prop) :
  (forall x, P (Num x)) ->
  (forall items, Forall P items -> P (Dim items)) ->
  forall a, P a.
Proof.
  intros Hnum Hdim. fix IH 1. intros [x|items].
  - apply Hnum.
  - apply Hdim. induction items as [|a items IHitems]; constructor; [apply IH | exact IHitems].
Qed.

Lemma value_forall (P : value -> Prop) :
  (forall x, P (VFloat x)) ->
  (forall n, P (VInt n)) ->
  (forall items, Forall P items -> P (VList items)) ->
  (forall a, P (VArray a)) ->
  (forall a, P (VTensor a)) ->
  forall v, P v.
Proof.
  intros Hf Hi Hl Ha Ht. fix IH 1. intros [x|n|items|a|a].
  - apply Hf.
  - apply Hi.
  - apply Hl. induction items as [|v items IHitems]; constructor; [apply IH | exact IHitems].
  - apply Ha.
  - apply Ht.
Qed.

Lemma forallb_Forall {A : Type} (f : A -> bool) (l : list A) :
  forallb f l = true <-> Forall (fun a => f a = true) l.
Proof.
  induction l as [|a l IH]; simpl.
  - split; [constructor | reflexivity].
  - rewrite andb_true_iff, IH. split.
    + intros [H1 H2]. constructor; assumption.
    + intros H. inversion H; subst. split; assumption.
Qed.

Lemma map_id_on {A : Type} (f : A -> A) (l : list A) :
  Forall (fun a => f a = a) l -> map f l = l.
Proof. induction 1 as [|a l Ha _ IH]; simpl; [reflexivity | rewrite Ha, IH; reflexivity]. Qed.

Lemma tolist_plain (a : nested) : is_plain (tolist a) = true.
Proof.
  induction a as [x|items IH] using nested_forall; simpl; [reflexivity|].
  apply forallb_Forall, Forall_map. exact IH.
Qed.

Lemma normalize_plain (v : value) : is_plain (normalize v) = true.
Proof.
  induction v as [x|n|items IH|a|a] using value_forall; simpl;
    try reflexivity; try apply tolist_plain.
  apply forallb_Forall, Forall_map. exact IH.
Qed.

Lemma normalize_id (v : value) : is_plain v = true -> normalize v = v.
Proof.
  induction v as [x|n|items IH|a|a] using value_forall; simpl;
    try reflexivity; try discriminate.
  intros H. apply forallb_Forall in H. f_equal. apply map_id_on.
  induction IH as [|w items Hw _ IH']; [constructor|].
  inversion H; subst. constructor; [apply Hw; assumption | apply IH'; assumption].
Qed.

Lemma res_map_ok {A B : Type} (f : A -> res B) (g : A -> B) (l : list A) :
  Forall (fun a => f a = Ok (g a)) l -> res_map f l = Ok (map g l).
Proof.
  induction 1 as [|a l Ha _ IH]; simpl; [reflexivity|]. rewrite Ha. simpl. rewrite IH. reflexivity.
Qed.

Lemma res_map_Forall2 {A B : Type} (f : A -> res B) (l : list A) (bs : list B) :
  res_map f l = Ok bs -> Forall2 (fun a b => f a = Ok b) l bs.
Proof.
  revert bs. induction l as [|a l IH]; simpl; intros bs.
  - intros [= <-]. constructor.
  - destruct (f a) as [b|] eqn:Fa; simpl; [|discriminate].
    destruct (res_map f l) as [bs'|]; simpl; [|discriminate].
    intros [= <-]. constructor; [exact Fa | apply IH; reflexivity].
Qed.

(** What [json.dump] wrote, [json.load] reads back as it was. *)
Lemma to_json_inverse (v : value) (j : json) : to_json v = Ok j -> of_json j = v.
Proof.
  revert j. induction v as [x|n|items IH|a|a] using value_forall; intros j; simpl;
    try discriminate; try (intros [= <-]; reflexivity).
  - destruct (int_str_ok n); [|discriminate]. intros [= <-]. reflexivity.
  - destruct (res_map to_json items) as [js|] eqn:R; cbn [res_bind]; [|discriminate].
    intros [= <-]. cbn [of_json]. f_equal.
    apply res_map_Forall2 in R. clear -R IH.
    induction R as [|w jw items js Hw _ IHR]; [reflexivity|].
    inversion IH as [|? ? Hhd Htl]; subst. cbn [map]. f_equal.
    + apply Hhd, Hw.
    + apply IHR, Htl.
Qed.

Lemma to_json_series_inverse (values : list value) (js : list json) :
  res_map to_json values = Ok js -> map of_json js = values.
Proof.
  intros R. apply res_map_Forall2 in R.
  induction R as [|w jw items js' Hw _ IHR]; [reflexivity|].
  cbn [map]. f_equal; [apply to_json_inverse, Hw | exact IHR].
Qed.

(** ** Conversion of a log *)

Lemma convert_series_uniform (values : list value) :
  uniform_series values = true -> convert_series values = Ok (map normalize values).
Proof.
  unfold uniform_series. intros H.
  destruct values as [|v0 values]; [reflexivity|].
  apply orb_true_iff in H as [H|H]; [apply orb_true_iff in H as [H|H]|].
  - apply forallb_Forall in H. unfold convert_series.
    inversion H as [|? ? H0 _]; subst. rewrite H0.
    apply res_map_ok. eapply Forall_impl; [exact H|].
    intros [x|n|items|a|a]; simpl; intros; try discriminate; reflexivity.
  - apply forallb_Forall in H. unfold convert_series.
    inversion H as [|? ? H0 _]; subst. rewrite H0.
    replace (has_cpu v0) with false by (destruct v0; simpl in *; congruence).
    apply res_map_ok. eapply Forall_impl; [exact H|].
    intros [x|n|items|a|a]; simpl; intros; try discriminate; reflexivity.
  - apply forallb_Forall in H. unfold convert_series.
    inversion H as [|? ? H0 _]; subst.
    replace (has_cpu v0) with false by (destruct v0; simpl in *; congruence).
    replace (is_ndarray v0) with false by (destruct v0; simpl in *; congruence).
    f_equal. symmetry. apply map_id_on.
    eapply Forall_impl; [exact H|]. intros w Hw. apply normalize_id, Hw.
Qed.

Lemma res_map_log_ok {A B : Type} (f : list A -> res (list B)) (g : list A -> list B)
    (log : gmap string (list A)) :
  map_Forall (fun _ a => f a = Ok (g a)) log -> res_map_log f log = Ok (g <$> log).
Proof.
  intros H. unfold res_map_log.
  rewrite (res_map_ok _ (fun kv => (fst kv, g (snd kv)))).
  - cbn [res_bind]. f_equal.
    rewrite <- (list_to_map_to_list log) at 2.
    rewrite <- list_to_map_fmap. f_equal.
  - apply Forall_forall. intros [k a] Hin. cbn [fst snd].
    apply elem_of_map_to_list in Hin. rewrite (H k a Hin). reflexivity.
Qed.

Lemma convert_log_uniform (log : gmap string (list value)) :
  map_Forall (fun _ values => uniform_series values = true) log ->
  _convert_log log = Ok (map normalize <$> log).
Proof.
  intros H. apply res_map_log_ok.
  intros k values Hk. apply convert_series_uniform, (H k values Hk).
Qed.

(** What a loop over a dictionary that ended normally has built. *)
Lemma res_map_log_lookup {A B : Type} (f : list A -> res (list B))
    (log : gmap string (list A)) (log' : gmap string (list B)) (k : string) :
  res_map_log f log = Ok log' ->
  match log !! k with
  | Some a => exists b, f a = Ok b /\ log' !! k = Some b
  | None => log' !! k = None
  end.
Proof.
  unfold res_map_log.
  destruct (res_map (fun kv => let! b := f (snd kv) in Ok (fst kv, b)) (map_to_list log))
    as [kvs|] eqn:R; cbn [res_bind]; [|discriminate].
  intros [= <-]. apply res_map_Forall2 in R.
  assert (Hfst : kvs.*1 = (map_to_list log).*1).
  { clear -R. induction R as [|[k0 a] [k1 b] l l' H _ IH]; [reflexivity|].
    cbn [fmap list_fmap fst]. cbn [fst snd] in H.
    destruct (f a); cbn [res_bind] in H; [|discriminate].
    injection H as -> _. f_equal. exact IH. }
  pose proof (NoDup_fst_map_to_list log) as Hnd. rewrite <- Hfst in Hnd.
  destruct (log !! k) as [a|] eqn:E.
  - apply elem_of_map_to_list in E.
    apply list_elem_of_lookup in E as [i Hi].
    destruct (Forall2_lookup_l _ _ _ _ _ R Hi) as ([k1 b] & Hi' & H).
    cbn [fst snd] in H. destruct (f a) as [b0|] eqn:Fa; cbn [res_bind] in H; [|discriminate].
    injection H as <- <-. exists b0. split; [reflexivity|].
    apply elem_of_list_to_map; [exact Hnd|].
    apply list_elem_of_lookup. exists i. exact Hi'.
  - apply not_elem_of_list_to_map. rewrite Hfst.
    intros Hin. apply list_elem_of_fmap in Hin as ([k0 a] & -> & Hin).
    apply elem_of_map_to_list in Hin. cbn [fst] in E. congruence.
Qed.

Lemma json_log_inverse (log : gmap string (list value)) (jl : gmap string (list json)) :
  res_map_log (res_map to_json) log = Ok jl -> map of_json <$> jl = log.
Proof.
  intros H. apply map_eq. intros k. rewrite lookup_fmap.
  pose proof (res_map_log_lookup (res_map to_json) log jl k H) as Hk.
  destruct (log !! k) as [values|].
  - destruct Hk as (js & Hjs & ->). cbn. f_equal. apply to_json_series_inverse, Hjs.
  - rewrite Hk. reflexivity.
Qed.

Lemma json_dump_load (data : document value) (d : document json) :
  json_dump data = Ok d -> json_load d = data.
Proof.
  unfold json_dump.
  destruct (res_map_log (res_map to_json) (doc_state_log data)) as [sl|] eqn:Hs;
    cbn [res_bind]; [|discriminate].
  destruct (res_map_log (res_map to_json) (doc_rew_log data)) as [rl|] eqn:Hr;
    cbn [res_bind]; [|discriminate].
  destruct (int_str_ok (doc_num_episodes data)); [|discriminate].
  intros [= <-]. unfold json_load. cbn [doc_dt doc_state_log doc_rew_log doc_num_episodes].
  rewrite (json_log_inverse _ _ Hs), (json_log_inverse _ _ Hr).
  destruct data; reflexivity.
Qed.

(** ** Paths *)

Lemma s_append (a b : string) : s (a +:+ b) = s a ++ s b.
Proof. unfold s. induction a as [|c a IH]; simpl; [reflexivity | f_equal; exact IH]. Qed.

Lemma split_path_no_sep (N cur : str) :
  "/"%char ∉ N -> split_path_from cur N = [rev cur ++ N].
Proof.
  revert cur. induction N as [|c N IH]; intros cur Hn; simpl.
  - rewrite app_nil_r. reflexivity.
  - destruct (chr_eqb c "/") eqn:E.
    + apply chr_eqb_eq in E. subst c. exfalso. apply Hn. left.
    + rewrite IH by (intros H; apply Hn; right; exact H).
      simpl. rewrite <- app_assoc. reflexivity.
Qed.

Lemma split_path_last (D N cur : str) :
  "/"%char ∉ N -> exists pre, split_path_from cur (D ++ "/"%char :: N) = pre ++ [N].
Proof.
  intros Hn. revert cur. induction D as [|c D IH]; intros cur; simpl.
  - change (chr_eqb "/" "/") with true. cbv iota.
    rewrite (split_path_no_sep N [] Hn). exists [rev cur]. reflexivity.
  - destruct (chr_eqb c "/").
    + destruct (IH []) as [pre ->]. exists (rev cur :: pre). reflexivity.
    + apply IH.
Qed.

Lemma path_name_last (D N : str) :
  "/"%char ∉ N -> is_dot_or_empty N = false -> path_name (D ++ "/"%char :: N) = N.
Proof.
  intros Hn Hd. unfold path_name.
  destruct (split_path_last D N [] Hn) as [pre ->].
  rewrite List.filter_app. cbn [List.filter]. rewrite Hd. cbn [negb].
  rewrite last_snoc. reflexivity.
Qed.

Lemma rfind_absent (c : ascii) (E : str) (i : nat) (found : option nat) :
  c ∉ E -> rfind_from i c E found = found.
Proof.
  revert i found. induction E as [|a E IH]; intros i found Hn; simpl; [reflexivity|].
  rewrite IH by (intros H; apply Hn; right; exact H).
  destruct (chr_eqb a c) eqn:Eq; [|reflexivity].
  apply chr_eqb_eq in Eq. subst a. exfalso. apply Hn. left.
Qed.

Lemma rfind_last (c : ascii) (F E : str) (i : nat) (found : option nat) :
  c ∉ E -> rfind_from i c (F ++ c :: E) found = Some (i + length F)%nat.
Proof.
  intros Hn. revert i found. induction F as [|a F IH]; intros i found; simpl.
  - rewrite (rfind_absent c E _ _ Hn).
    replace (chr_eqb c c) with true by (symmetry; apply chr_eqb_eq; reflexivity).
    rewrite Nat.add_0_r. reflexivity.
  - rewrite IH. f_equal. lia.
Qed.

Lemma path_name_single (N : str) :
  "/"%char ∉ N -> is_dot_or_empty N = false -> path_name N = N.
Proof.
  intros Hn Hd. unfold path_name. rewrite (split_path_no_sep N [] Hn).
  cbn [rev app List.filter]. rewrite Hd. reflexivity.
Qed.

Lemma join_parts_snoc (ps : list str) (N : str) :
  join_parts (ps ++ [N])
  = match ps with [] => N | _ :: _ => join_parts ps ++ "/"%char :: N end.
Proof.
  induction ps as [|c ps IH]; [reflexivity|].
  cbn [app join_parts]. fold join_parts. rewrite IH.
  destruct ps as [|d ps]; [reflexivity|].
  cbn [app]. rewrite <- app_assoc. reflexivity.
Qed.

(** Joining a path with a single name: the name, alone or after a [/]. *)
Lemma path_join_single (a N : str) :
  "/"%char ∉ N -> is_dot_or_empty N = false ->
  path_join a N = N \/ exists D, path_join a N = D ++ "/"%char :: N.
Proof.
  intros Hn Hd. unfold path_join.
  assert (Hroot : path_root N = []).
  { unfold path_root. destruct N as [|c N]; [reflexivity|]. cbn [leading_seps].
    destruct (chr_eqb c "/") eqn:E; [|reflexivity].
    apply chr_eqb_eq in E. subst c. exfalso. apply Hn. left. }
  assert (Hparts : path_parts N = [N]).
  { unfold path_parts. rewrite (split_path_no_sep N [] Hn).
    cbn [rev app List.filter]. rewrite Hd. reflexivity. }
  rewrite Hroot, Hparts. unfold path_str.
  destruct (path_parts a) as [|c ps].
  - cbn [app join_parts]. unfold path_root.
    destruct (leading_seps a) as [|[|[|n]]].
    + left. reflexivity.
    + right. exists []. reflexivity.
    + right. exists ["/"%char]. reflexivity.
    + right. exists []. reflexivity.
  - right. exists (path_root a ++ join_parts (c :: ps)).
    rewrite join_parts_snoc, <- app_assoc.
    destruct (path_root a); reflexivity.
Qed.

Lemma path_name_join (a N : str) :
  "/"%char ∉ N -> is_dot_or_empty N = false -> path_name (path_join a N) = N.
Proof.
  intros Hn Hd. destruct (path_join_single a N Hn Hd) as [-> | [D ->]].
  - apply path_name_single; assumption.
  - apply path_name_last; assumption.
Qed.

Lemma path_format_save_path (save_dir filename format : string) :
  (format = "json"%string) \/ (format = "pkl"%string) ->
  filename <> ""%string ->
  "/"%char ∉ s filename ->
  path_format (save_path save_dir filename format) = format.
Proof.
  intros Hfmt Hne Hsep.
  assert (HE : ("/"%char ∉ s format) /\ ("."%char ∉ s format)
                /\ (0 < length (s format))%nat).
  { destruct Hfmt as [-> | ->]; cbn; (split; [|split; [|lia]]);
      intros H; repeat (apply elem_of_cons in H as [H|H]; [discriminate H|]); inversion H. }
  destruct HE as (HE1 & HE2 & HE3).
  assert (HF : (0 < length (s filename))%nat).
  { destruct filename; [congruence | cbn; lia]. }
  unfold path_format, save_path, path_suffix.
  change (s (string_of_list_ascii ?l)) with (list_ascii_of_string (string_of_list_ascii l)).
  rewrite list_ascii_of_string_of_list_ascii.
  rewrite !s_append. change (s ".") with ["."%char]. cbn [app].
  rewrite path_name_join.
  - rewrite rfind_last by exact HE2. cbn [Nat.add].
    rewrite length_app. cbn [length].
    replace (0 <? length (s filename))%nat with true by (symmetry; apply Nat.ltb_lt; lia).
    replace (length (s filename) <? length (s filename) + S (length (s format)) - 1)%nat
      with true by (symmetry; apply Nat.ltb_lt; lia).
    cbn [andb]. rewrite drop_app_length. cbn [drop].
    unfold s. apply string_of_list_ascii_of_string.
  - intros H. apply elem_of_app in H as [H|H]; [exact (Hsep H)|].
    apply elem_of_cons in H as [H|H]; [discriminate H | exact (HE1 H)].
  - destruct (s filename) as [|a [|b F]]; [cbn in HF; lia | |reflexivity].
    destruct (s format); [cbn in HE3; lia | reflexivity].
Qed.

(** ** Saving and loading *)

(** What [load] finds at the path of a [save] that ended normally: the
    converted logs, [dt] and the number of episodes, as they were written. *)
Lemma load_after_save (self other : Logger) (fs fs' : store)
    (filename format save_dir : string) :
  filename <> ""%string ->
  "/"%char ∉ s filename ->
  save self fs filename format save_dir = (fs', Ok tt) ->
  ((format = "json"%string) \/ (format = "pkl"%string))
  /\ exists sl rl,
      _convert_log (state_log self) = Ok sl
      /\ _convert_log (rew_log self) = Ok rl
      /\ load other fs' (save_path save_dir filename format)
         = ({| state_log := sl; rew_log := rl; dt := dt self;
               num_episodes := num_episodes self |}, Ok tt).
Proof.
  intros Hne Hsep. unfold save.
  destruct (mkdir fs save_dir) as [fs1 [[]|e]]; [|discriminate].
  destruct (_convert_log (state_log self)) as [sl|]; [|discriminate].
  destruct (_convert_log (rew_log self)) as [rl|]; [|discriminate].
  destruct (String.eqb format "json") eqn:Fj.
  - apply String.eqb_eq in Fj. subst format.
    destruct (json_dump _) as [d|] eqn:D; [|discriminate].
    intros [= <-]. split; [left; reflexivity|].
    exists sl, rl. split; [reflexivity|]. split; [reflexivity|].
    unfold load.
    rewrite (path_format_save_path save_dir filename "json" (or_introl eq_refl) Hne Hsep).
    change (String.eqb "json" "json") with true. cbv iota.
    unfold write_file. cbn [files]. rewrite lookup_insert_eq.
    rewrite (json_dump_load _ _ D). reflexivity.
  - destruct (String.eqb format "pkl") eqn:Fp; [|discriminate].
    apply String.eqb_eq in Fp. subst format.
    intros [= <-]. split; [right; reflexivity|].
    exists sl, rl. split; [reflexivity|]. split; [reflexivity|].
    unfold load.
    rewrite (path_format_save_path save_dir filename "pkl" (or_intror eq_refl) Hne Hsep).
    change (String.eqb "pkl" "json") with false.
    change (String.eqb "pkl" "pkl") with true. cbv iota.
    unfold write_file. cbn [files]. rewrite lookup_insert_eq. reflexivity.
Qed.

(** C4, as the code has it.  For a file name that is not empty and holds
    no [/], and logs whose series are each of one kind (tensors only,
    arrays only, or plain values only): whenever [save] ends normally,
    [load] on the written path gives a logger with the same [dt] and
    [num_episodes] and with the series of both logs normalized to plain
    nested lists, whatever the loading logger held. *)
Theorem save_load_roundtrip (self other : Logger) (fs fs' : store)
    (filename format save_dir : string) :
  filename <> ""%string ->
  "/"%char ∉ s filename ->
  map_Forall (fun _ values => uniform_series values = true) (state_log self) ->
  map_Forall (fun _ values => uniform_series values = true) (rew_log self) ->
  save self fs filename format save_dir = (fs', Ok tt) ->
  load other fs' (save_path save_dir filename format)
  = ({| state_log := map normalize <$> state_log self;
        rew_log := map normalize <$> rew_log self;
        dt := dt self;
        num_episodes := num_episodes self |}, Ok tt).
Proof.
  intros Hne Hsep Hsl Hrl Hsave.
  destruct (load_after_save self other fs fs' filename format save_dir Hne Hsep Hsave)
    as (_ & sl & rl & Csl & Crl & ->).
  rewrite (convert_log_uniform _ Hsl) in Csl. rewrite (convert_log_uniform _ Hrl) in Crl.
  injection Csl as <-. injection Crl as <-. reflexivity.
Qed.

Lemma save_load_roundtrip_witness :
  load (Logger_init 0)
    (fst (save {| state_log := <["dof_pos"%string := [VTensor (Dim [Num 0.5; Num 1]);
                                                      VTensor (Dim [Num 2; Num 3])]]> ∅;
                  rew_log := <["total_rew"%string := [VFloat 6]]> ∅;
                  dt := 0.5; num_episodes := 8 |}
               empty_store "run" "json" "./logs"))
    (save_path "./logs" "run" "json")
  = ({| state_log :=
          map normalize <$> (<["dof_pos"%string := [VTensor (Dim [Num 0.5; Num 1]);
                                                     VTensor (Dim [Num 2; Num 3])]]> ∅);
        rew_log := map normalize <$> (<["total_rew"%string := [VFloat 6]]> ∅);
        dt := 0.5;
        num_episodes := 8 |}, Ok tt).
Proof.
  refine (save_load_roundtrip
            {| state_log := <["dof_pos"%string := [VTensor (Dim [Num 0.5; Num 1]);
                                                   VTensor (Dim [Num 2; Num 3])]]> ∅;
               rew_log := <["total_rew"%string := [VFloat 6]]> ∅;
               dt := 0.5; num_episodes := 8 |}
            (Logger_init 0) empty_store _ "run" "json" "./logs" _ _ _ _ _).
  - discriminate.
  - intros H. cbn in H. repeat (apply elem_of_cons in H as [H|H]; [discriminate H|]).
    inversion H.
  - apply map_Forall_insert_2; [reflexivity | apply map_Forall_empty].
  - apply map_Forall_insert_2; [reflexivity | apply map_Forall_empty].
  - vm_compute. reflexivity.
Defined.

(** C4 as stated fails.  A series that begins with a plain number and goes
    on with an array is passed through as it is: written as [pkl] it comes
    back with its array, not normalized, and written as [json] it makes
    [save] raise, as does an integer of more than 4300 digits.  And a file
    written under an empty name, [.json], has no suffix for [load], which
    refuses it. *)
Lemma save_load_roundtrip_fails :
  (exists fs' lg,
      save {| state_log := <["a"%string := [VFloat 1; VArray (Dim [Num 1; Num 2])]]> ∅;
              rew_log := ∅; dt := 0.5; num_episodes := 0 |}
           empty_store "run" "pkl" "./logs" = (fs', Ok tt)
      /\ load (Logger_init 0) fs' (save_path "./logs" "run" "pkl") = (lg, Ok tt)
      /\ state_log lg !! "a"%string = Some [VFloat 1; VArray (Dim [Num 1; Num 2])]
      /\ map normalize [VFloat 1; VArray (Dim [Num 1; Num 2])]
         = [VFloat 1; VList [VFloat 1; VFloat 2]])
  /\ (exists fs' e,
      save {| state_log := <["a"%string := [VFloat 1; VArray (Dim [Num 1; Num 2])]]> ∅;
              rew_log := ∅; dt := 0.5; num_episodes := 0 |}
           empty_store "run" "json" "./logs" = (fs', Raise (TypeError e)))
  /\ (exists fs' e,
      save {| state_log := <["a"%string := [VInt (10 ^ 4300)]]> ∅;
              rew_log := ∅; dt := 0.5; num_episodes := 0 |}
           empty_store "run" "json" "./logs" = (fs', Raise (ValueError e)))
  /\ (exists fs' e,
      save {| state_log := <["a"%string := [VFloat 1]]> ∅;
              rew_log := ∅; dt := 0.5; num_episodes := 0 |}
           empty_store "" "json" "./logs" = (fs', Ok tt)
      /\ load (Logger_init 0) fs' (save_path "./logs" "" "json")
         = (Logger_init 0, Raise (ValueError e))).
Proof.
  split; [|split; [|split]].
  - eexists _, _. split; [vm_compute; reflexivity|].
    split; [vm_compute; reflexivity|]. split; [vm_compute; reflexivity | reflexivity].
  - eexists _, _. vm_compute. reflexivity.
  - eexists _, _. vm_compute. reflexivity.
  - eexists _, _. split; vm_compute; reflexivity.
Qed.




(** * Further properties of the log analyser *)

(** ** Which exceptions, and when *)

(** X1.  A data type that is neither [torque] nor [action] makes
    [parse_log_data] raise [KeyError] with that name, whatever the log
    holds. *)
Theorem unknown_data_type_raises (text : str) (data_type : string) :
  data_type <> "torque"%string -> data_type <> "action"%string ->
  parse_log_data text data_type = Raise (KeyError data_type).
Proof.
  intros Ht Ha. unfold parse_log_data, DATA_TYPES. cbn [dict_get].
  replace (String.eqb "torque" data_type) with false
    by (symmetry; apply String.eqb_neq; congruence).
  replace (String.eqb "action" data_type) with false
    by (symmetry; apply String.eqb_neq; congruence).
  reflexivity.
Qed.

Lemma unknown_data_type_raises_witness :
  parse_log_data (text_of_lines ["Step 0:"; "Output Torque: [1.0]"]%string) "velocity"
  = Raise (KeyError "velocity").
Proof. apply unknown_data_type_raises; discriminate. Defined.


Lemma read_lines_ok (p : pattern) (lines : list str) (st st' : scan) :
  read_lines p st lines = Ok st' -> scan_lines p st lines = Ok st'.
Proof.
  revert st. induction lines as [|line lines IH]; intros st; cbn [read_lines scan_lines];
    [trivial|].
  unfold read_line at 1. destruct (step_digits_ok line); [|discriminate].
  destruct (scan_line p st line) as [st1|]; cbn [res_bind]; [apply IH | discriminate].
Qed.

Lemma read_lines_scan_lines (p : pattern) (lines : list str) (st : scan) :
  Forall (fun line => step_digits_ok line = true) lines ->
  read_lines p st lines = scan_lines p st lines.
Proof.
  intros H. revert st. induction H as [|line lines Hl _ IH]; intros st; [reflexivity|].
  cbn [read_lines scan_lines]. unfold read_line at 1. rewrite Hl.
  destruct (scan_line p st line); cbn [res_bind]; [apply IH | reflexivity].
Qed.

(** On a file that is read to its end and whose step numbers [int]
    accepts, the call is the function on the text. *)
Lemma parse_log_file_whole (text : str) (data_type : string) :
  Forall (fun line => step_digits_ok line = true) (file_lines text) ->
  parse_log_file (Ok (whole text)) data_type = parse_log_data text data_type.
Proof.
  intros H. unfold parse_log_file, parse_log_data.
  destruct (dict_get DATA_TYPES data_type) as [cfg|]; cbn [res_bind]; [|reflexivity].
  cbn [whole text_read read_error]. rewrite (read_lines_scan_lines _ _ _ H).
  destruct (scan_lines _ _ _); reflexivity.
Qed.



(** ** Lines that match no rule *)

Lemma scan_line_unmatched (p : pattern) (st : scan) (line : str) :
  search step_pattern line = None -> search p line = None ->
  scan_line p st line = Ok st.
Proof.
  intros Hs Hd. unfold scan_line. rewrite Hs, Hd. destruct st; reflexivity.
Qed.

(** X3.  A line that matches neither the step pattern nor the data pattern
    has no effect: the log without that line gives the same result, be it
    a return or an exception. *)
Theorem unmatched_line_is_skipped (text text' : str) (data_type : string)
    (cfg : data_type_config) (before rest : list str) (line : str) :
  dict_get DATA_TYPES data_type = Ok cfg ->
  file_lines text = before ++ line :: rest ->
  file_lines text' = before ++ rest ->
  search step_pattern line = None ->
  search (dt_pattern cfg) line = None ->
  parse_log_data text data_type = parse_log_data text' data_type.
Proof.
  intros Hcfg H1 H2 Hs Hd. unfold parse_log_data.
  rewrite Hcfg, H1, H2. cbn [res_bind]. rewrite !scan_lines_app.
  destruct (scan_lines (dt_pattern cfg) scan_start before) as [st|e]; cbn [res_bind];
    [|reflexivity].
  cbn [scan_lines]. rewrite (scan_line_unmatched _ _ _ Hs Hd). reflexivity.
Qed.

Lemma unmatched_line_is_skipped_witness :
  parse_log_data
    (text_of_lines ["Step 0:"; "loading policy [ok]"; "Output Torque: [1.0, 2.0]"]%string)
    "torque"
  = parse_log_data (text_of_lines ["Step 0:"; "Output Torque: [1.0, 2.0]"]%string) "torque".
Proof.
  apply (unmatched_line_is_skipped _ _ "torque"
           {| dt_pattern := torque_pattern; dt_label := "Torque (Nm)" |}
           [s "Step 0:" ++ ["010"%char]]
           [s "Output Torque: [1.0, 2.0]" ++ ["010"%char]]
           (s "loading policy [ok]" ++ ["010"%char]));
    vm_compute; reflexivity.
Defined.

(** ** The steps and the rows that are returned *)

Lemma digit_value_range (c : ascii) : is_digit c = true -> 0 <= digit_value c <= 9.
Proof.
  unfold is_digit, digit_value. intros H. apply andb_true_iff in H as [H1 H2].
  apply Nat.leb_le in H1, H2. lia.
Qed.

Lemma fold_digits_nonneg (g : str) (acc : Z) :
  0 <= acc -> Forall (fun c => is_digit c = true) g ->
  0 <= fold_left (fun a c => 10 * a + digit_value c) g acc.
Proof.
  revert acc. induction g as [|c g IH]; intros acc Hacc Hg; simpl; [exact Hacc|].
  inversion Hg as [|? ? Hc Hg']; subst. apply IH; [|exact Hg'].
  pose proof (digit_value_range c Hc). lia.
Qed.

Lemma py_int_nonneg (g : str) :
  Forall (fun c => is_digit c = true) g -> 0 <= py_int g.
Proof. intros Hg. unfold py_int. apply fold_digits_nonneg; [lia | exact Hg]. Qed.

Lemma search_step_digits (line g : str) :
  search step_pattern line = Some g -> Forall (fun c => is_digit c = true) g.
Proof.
  intros H. apply search_some_at in H as [i H]. unfold match_at in H.
  destruct (startswith (lead step_pattern) (drop i line)); [|discriminate].
  apply group_plus_class in H as (_ & Hall & _). exact Hall.
Qed.

(** What holds of the step in force and of the steps recorded holds on from
    a line to the next, when it holds of every step a line declares. *)
Lemma scan_lines_steps_from (D : Z -> Prop) (p : pattern) (lines : list str) (st st' : scan) :
  scan_lines p st lines = Ok st' ->
  (forall line g, line ∈ lines -> search step_pattern line = Some g -> D (py_int g)) ->
  (forall z, current_step st = Some z -> D z) ->
  Forall D (steps st) ->
  (forall z, current_step st' = Some z -> D z) /\ Forall D (steps st').
Proof.
  revert st. induction lines as [|line lines IH]; intros st; simpl.
  - intros [= <-] _ Hc Hs. split; assumption.
  - destruct (scan_line p st line) as [st1|] eqn:E; simpl; [|discriminate].
    intros H Hdecl Hc Hs. apply (IH st1 H).
    + intros l g Hl. apply Hdecl. right. exact Hl.
    + unfold scan_line in E.
      assert (Hcur : forall z,
                 match search step_pattern line with
                 | Some g0 => Some (py_int g0)
                 | None => current_step st
                 end = Some z -> D z).
      { destruct (search step_pattern line) as [g0|] eqn:S.
        - intros z [= <-]. apply (Hdecl line g0); [left | exact S].
        - exact Hc. }
      destruct (search p line) as [g|];
        [destruct (match search step_pattern line with
                   | Some g0 => Some (py_int g0)
                   | None => current_step st
                   end) as [c|] eqn:C;
         [destruct (res_map py_float (split_comma_space g)); simpl in E; [|discriminate]|]|];
        injection E as <-; simpl; try rewrite C; exact Hcur.
    + unfold scan_line in E.
      destruct (search p line) as [g|];
        [destruct (match search step_pattern line with
                   | Some g0 => Some (py_int g0)
                   | None => current_step st
                   end) as [c|] eqn:C;
         [destruct (res_map py_float (split_comma_space g)); simpl in E; [|discriminate]|]|];
        injection E as <-; simpl; try exact Hs.
      apply Forall_app. split; [exact Hs|]. constructor; [|constructor].
      destruct (search step_pattern line) as [g0|] eqn:S.
      * injection C as <-. apply (Hdecl line g0); [left | exact S].
      * apply Hc, C.
Qed.

(** X4.  Every step that [parse_log_data] returns was declared by a line of
    the log: it is the number read from the digits that the step pattern
    captured there, and it is not negative. *)
Theorem returned_steps_are_declared (text : str) (data_type : string)
    (stp : list Z) (m : ndarray) (z : Z) :
  parse_log_data text data_type = Ok (stp, m) ->
  z ∈ stp ->
  0 <= z /\ exists line g,
    line ∈ file_lines text /\ search step_pattern line = Some g /\ z = py_int g.
Proof.
  unfold parse_log_data.
  destruct (dict_get DATA_TYPES data_type) as [cfg|]; cbn [res_bind]; [|discriminate].
  destruct (scan_lines (dt_pattern cfg) scan_start (file_lines text)) as [st|] eqn:E;
    cbn [res_bind]; [|discriminate].
  destruct (np_array (data_matrix st)); cbn [res_bind]; [|discriminate].
  intros [= <- _] Hz.
  pose proof (scan_lines_steps_from
                (fun z => 0 <= z /\ exists line g,
                     line ∈ file_lines text /\ search step_pattern line = Some g
                     /\ z = py_int g)
                _ _ _ _ E) as H.
  destruct H as [_ H].
  - intros line g Hl Hg. split; [apply py_int_nonneg, (search_step_digits line), Hg|].
    exists line, g. auto.
  - intros z0 Hz0. discriminate Hz0.
  - constructor.
  - rewrite Forall_forall in H. apply H, Hz.
Qed.

Lemma returned_steps_are_declared_witness :
  0 <= 12 /\ exists line g,
    line ∈ file_lines (text_of_lines ["Step 7:"; "Step 12: Output Torque: [1.0]"]%string)
    /\ search step_pattern line = Some g /\ 12 = py_int g.
Proof.
  apply (returned_steps_are_declared _ "torque" [12] [[1]%float]).
  - vm_compute. reflexivity.
  - left.
Defined.

Lemma scan_line_count (p : pattern) (st st' : scan) (line : str) :
  scan_line p st line = Ok st' ->
  length (steps st')
  = (length (steps st)
     + if matches p line && bool_decide (is_Some (current_step st'))
       then 1 else 0)%nat.
Proof.
  unfold scan_line, matches. intros H.
  destruct (search p line) as [g|].
  - destruct (match search step_pattern line with
              | Some g0 => Some (py_int g0)
              | None => current_step st
              end) as [c|].
    + destruct (res_map py_float (split_comma_space g)); simpl in H; [|discriminate].
      injection H as <-. cbn [steps current_step andb].
      rewrite length_app, bool_decide_true by eauto. reflexivity.
    + injection H as <-. cbn [steps current_step andb].
      rewrite bool_decide_false by (intros [? ?]; discriminate). lia.
  - injection H as <-. cbn [steps andb]. lia.
Qed.

Lemma scan_lines_count_known (p : pattern) (lines : list str) (st st' : scan) :
  scan_lines p st lines = Ok st' ->
  is_Some (current_step st) ->
  length (steps st') = (length (steps st) + length (List.filter (matches p) lines))%nat.
Proof.
  revert st. induction lines as [|line lines IH]; intros st; simpl.
  - intros [= <-] _. lia.
  - destruct (scan_line p st line) as [st1|] eqn:E; simpl; [|discriminate].
    intros H Hk.
    assert (Hk1 : is_Some (current_step st1))
      by (eapply scan_line_step_known; [exact E | left; exact Hk]).
    rewrite (IH st1 H Hk1), (scan_line_count _ _ _ _ E).
    rewrite bool_decide_true by exact Hk1. rewrite andb_true_r.
    destruct (matches p line); simpl; lia.
Qed.

Lemma scan_lines_count (p : pattern) (lines : list str) (st st' : scan) :
  scan_lines p st lines = Ok st' ->
  current_step st = None ->
  length (steps st')
  = (length (steps st) + length (List.filter (matches p) (from_first_step lines)))%nat.
Proof.
  revert st. induction lines as [|line lines IH]; intros st.
  - simpl. intros [= <-] _. lia.
  - cbn [scan_lines from_first_step].
    destruct (scan_line p st line) as [st1|] eqn:E; cbn [res_bind]; [|discriminate].
    intros H Hc.
    destruct (search step_pattern line) as [g0|] eqn:S.
    + assert (Hk1 : is_Some (current_step st1)).
      { eapply scan_line_step_known; [exact E | right]. unfold declares_step.
        rewrite S. eauto. }
      rewrite (scan_lines_count_known _ _ _ _ H Hk1), (scan_line_count _ _ _ _ E).
      rewrite bool_decide_true by exact Hk1. rewrite andb_true_r.
      cbn [List.filter]. destruct (matches p line); simpl; lia.
    + assert (Hst1 : st1 = st).
      { unfold scan_line in E. rewrite S, Hc in E.
        destruct (search p line); injection E as <-; destruct st; simpl in *; congruence. }
      subst st1. apply (IH st H Hc).
Qed.

(** X5.  The number of records that [parse_log_data] returns is the number
    of lines that match the data pattern, counted from the first line that
    declares a step: data lines before it are left out, every one after it
    gives a record. *)
Theorem record_count (text : str) (data_type : string) (cfg : data_type_config)
    (stp : list Z) (m : ndarray) :
  dict_get DATA_TYPES data_type = Ok cfg ->
  parse_log_data text data_type = Ok (stp, m) ->
  length stp = length (List.filter (matches (dt_pattern cfg)) (from_first_step (file_lines text)))
  /\ length m = length stp.
Proof.
  intros Hcfg. unfold parse_log_data. rewrite Hcfg. cbn [res_bind].
  destruct (scan_lines (dt_pattern cfg) scan_start (file_lines text)) as [st|] eqn:E;
    cbn [res_bind]; [|discriminate].
  destruct (np_array (data_matrix st)) as [m'|] eqn:A; cbn [res_bind]; [|discriminate].
  intros [= <- <-]. apply np_array_ok in A as [-> _]. split.
  - rewrite (scan_lines_count _ _ _ _ E eq_refl). reflexivity.
  - symmetry. eapply scan_lines_lengths; [exact E | reflexivity].
Qed.

Lemma record_count_witness :
  length [3; 3]
  = length (List.filter (matches torque_pattern)
              (from_first_step
                 (file_lines (text_of_lines ["Output Torque: [9.0]"; "Step 3:";
                                             "Output Torque: [1.0]"; "noise";
                                             "Output Torque: [2.0]"]%string))))
  /\ length [[1]; [2]]%float = length [3; 3].
Proof.
  apply (record_count _ "torque" {| dt_pattern := torque_pattern; dt_label := "Torque (Nm)" |}).
  - reflexivity.
  - vm_compute. reflexivity.
Defined.

Lemma split_comma_space_nonempty (cur l : str) : split_comma_space_from cur l <> [].
Proof.
  assert (H : forall n (l : str) cur, (length l <= n)%nat -> split_comma_space_from cur l <> []).
  { clear. induction n as [|n IH]; intros l cur Hn.
    - destruct l; [discriminate | simpl in Hn; lia].
    - destruct l as [|a [|b l]]; [discriminate | discriminate |].
      change (split_comma_space_from cur (a :: b :: l))
        with (if chr_eqb a "," && chr_eqb b " "
              then rev cur :: split_comma_space_from [] l
              else split_comma_space_from (a :: cur) (b :: l)).
      destruct (chr_eqb a "," && chr_eqb b " "); [discriminate|].
      apply IH. simpl in *. lia. }
  apply (H (length l)). lia.
Qed.

Lemma scan_lines_rows (p : pattern) (lines : list str) (st st' : scan) :
  scan_lines p st lines = Ok st' ->
  Forall (fun row : list float => row <> []) (data_matrix st) ->
  Forall (fun row : list float => row <> []) (data_matrix st').
Proof.
  revert st. induction lines as [|line lines IH]; intros st; simpl.
  - intros [= <-]. trivial.
  - destruct (scan_line p st line) as [st1|] eqn:E; simpl; [|discriminate].
    intros H Hr. apply (IH st1 H). unfold scan_line in E.
    destruct (search p line) as [g|];
      [destruct (match search step_pattern line with
                 | Some g0 => Some (py_int g0)
                 | None => current_step st
                 end) as [c|];
       [destruct (res_map py_float (split_comma_space g)) as [vs|] eqn:R;
        simpl in E; [|discriminate]|]|];
      injection E as <-; simpl; try exact Hr.
    apply Forall_app. split; [exact Hr|]. constructor; [|constructor].
    apply res_map_length in R. intros ->. simpl in R.
    pose proof (split_comma_space_nonempty [] g) as Hne.
    unfold split_comma_space in R. destruct (split_comma_space_from [] g);
      [congruence | discriminate R].
Qed.

(** X6.  Every row of the matrix that [parse_log_data] returns holds at
    least one number: a matched list gives at least one token. *)
Theorem returned_rows_nonempty (text : str) (data_type : string)
    (stp : list Z) (m : ndarray) (row : list float) :
  parse_log_data text data_type = Ok (stp, m) ->
  row ∈ m ->
  (0 < length row)%nat.
Proof.
  unfold parse_log_data.
  destruct (dict_get DATA_TYPES data_type) as [cfg|]; cbn [res_bind]; [|discriminate].
  destruct (scan_lines (dt_pattern cfg) scan_start (file_lines text)) as [st|] eqn:E;
    cbn [res_bind]; [|discriminate].
  destruct (np_array (data_matrix st)) as [m'|] eqn:A; cbn [res_bind]; [|discriminate].
  intros [= _ <-] Hrow. apply np_array_ok in A as [-> _].
  pose proof (scan_lines_rows _ _ _ _ E ltac:(constructor)) as H.
  rewrite Forall_forall in H. specialize (H row Hrow).
  destruct row; [congruence | simpl; lia].
Qed.

Lemma returned_rows_nonempty_witness : (0 < length [1; 2.5]%float)%nat.
Proof.
  apply (returned_rows_nonempty
           (text_of_lines ["Step 0:"; "Output Torque: [1.0, 2.5]"]%string) "torque"
           [0] [[1; 2.5]%float]).
  - vm_compute. reflexivity.
  - left.
Defined.

(** * Further properties of the statistics, the table and [main] *)

Lemma fold_zip_with_length (f : float -> float -> float) (rs : list (list float))
    (r : list float) (n : nat) :
  length r = n -> Forall (fun row => length row = n) rs ->
  length (fold_left (zip_with f) rs r) = n.
Proof.
  revert r. induction rs as [|r1 rs IH]; intros r Hr Hrs; simpl; [exact Hr|].
  inversion Hrs as [|? ? H1 H2]; subst. apply IH; [|exact H2].
  rewrite length_zip_with. lia.
Qed.

Lemma rectangular_rows (r : list float) (rs : list (list float)) :
  rectangular (r :: rs) -> Forall (fun row => length row = length r) (r :: rs).
Proof.
  intros H. apply Forall_forall. intros row Hrow. apply H; [exact Hrow | left].
Qed.

Lemma np_sum0_length (m : ndarray) (n : nat) :
  ncols m = n -> Forall (fun row => length row = n) m -> length (np_sum0 m) = n.
Proof.
  intros Hn Hm. unfold np_sum0. apply fold_zip_with_length; [|exact Hm].
  rewrite Hn. apply repeat_length.
Qed.

Lemma stats_lengths (m : ndarray) :
  m <> [] -> rectangular m ->
  exists st,
    calculate_stats m = Ok st
    /\ length (max_abs st) = ncols m /\ length (mean st) = ncols m
    /\ length (mean_abs st) = ncols m /\ length (std st) = ncols m.
Proof.
  intros Hne Hrect. destruct m as [|r rs]; [congruence|].
  pose proof (rectangular_rows r rs Hrect) as Hall.
  unfold calculate_stats. cbn [np_abs map np_max0 res_bind ncols].
  eexists. split; [reflexivity|]. cbn [max_abs mean mean_abs std].
  assert (Habs : Forall (fun row => length row = length r) (map (map abs) (r :: rs))).
  { apply Forall_map. eapply Forall_impl; [exact Hall|].
    intros row Hrow. cbn. rewrite length_map. exact Hrow. }
  repeat split.
  - apply fold_zip_with_length; [apply length_map|].
    inversion Habs; assumption.
  - unfold np_mean0. rewrite length_map. apply np_sum0_length; [reflexivity | exact Hall].
  - unfold np_mean0. rewrite length_map.
    apply np_sum0_length; [cbn; apply length_map | exact Habs].
  - unfold np_std0. rewrite length_map.
    assert (Hmean : length (np_mean0 (r :: rs)) = length r).
    { unfold np_mean0. rewrite length_map.
      apply np_sum0_length; [reflexivity | exact Hall]. }
    apply np_sum0_length.
    + cbn [ncols map]. rewrite length_map, length_zip_with, Hmean. lia.
    + apply Forall_map, Forall_map. eapply Forall_impl; [exact Hall|].
      intros row Hrow. cbn beta in Hrow |- *.
      rewrite length_map, length_zip_with, Hmean. lia.
Qed.

(** X7.  [calculate_stats] succeeds on every matrix that has a row, and
    raises [ValueError] on the empty one; on a rectangular matrix each of
    the four lists it returns has one entry per column. *)
Theorem calculate_stats_lengths (m : ndarray) :
  (m = [] -> exists msg, calculate_stats m = Raise (ValueError msg))
  /\ (m <> [] -> rectangular m ->
      exists st,
        calculate_stats m = Ok st
        /\ length (max_abs st) = ncols m /\ length (mean st) = ncols m
        /\ length (mean_abs st) = ncols m /\ length (std st) = ncols m).
Proof.
  split.
  - intros ->. eexists. reflexivity.
  - apply stats_lengths.
Qed.

Lemma calculate_stats_lengths_witness :
  exists st,
    calculate_stats [[1; -2; 0.5]; [3; -4; 0.25]]%float = Ok st
    /\ length (max_abs st) = 3%nat /\ length (mean st) = 3%nat
    /\ length (mean_abs st) = 3%nat /\ length (std st) = 3%nat.
Proof.
  refine (proj2 (calculate_stats_lengths [[1; -2; 0.5]; [3; -4; 0.25]]%float) _ _).
  - discriminate.
  - intros r1 r2 H1 H2.
    repeat (apply elem_of_cons in H1 as [-> | H1]);
      repeat (apply elem_of_cons in H2 as [-> | H2]);
      try reflexivity; try inversion H1; try inversion H2.
Defined.

Lemma np_maximum_cases (a b : float) : np_maximum a b = a \/ np_maximum a b = b.
Proof. unfold np_maximum. destruct ((b <=? a)%float || is_nan a); auto. Qed.

Lemma fold_maximum_attained (rs : list (list float)) (r : list float) (c : nat) (x : float) :
  fold_left (zip_with np_maximum) rs r !! c = Some x ->
  exists row, row ∈ r :: rs /\ row !! c = Some x.
Proof.
  revert r. induction rs as [|r1 rs IH]; intros r; simpl.
  - intros H. exists r. split; [left | exact H].
  - intros H. destruct (IH _ H) as (row & Hrow & Hx).
    apply elem_of_cons in Hrow as [-> | Hrow].
    + apply lookup_zip_with_Some in Hx as (a & b & -> & Ha & Hb).
      destruct (np_maximum_cases a b) as [-> | ->].
      * exists r. split; [left | exact Ha].
      * exists r1. split; [right; left | exact Hb].
    + exists row. split; [right; right; exact Hrow | exact Hx].
Qed.

(** X8.  Each entry of max_abs is attained: it is the absolute value of an
    entry of its column. *)
Theorem max_abs_attained (m : ndarray) (st : stats) (c : nat) (x : float) :
  calculate_stats m = Ok st ->
  max_abs st !! c = Some x ->
  exists (row : list float) (y : float), row ∈ m /\ row !! c = Some y /\ x = abs y.
Proof.
  unfold calculate_stats. destruct m as [|r rs]; [discriminate|].
  cbn [np_abs map np_max0 res_bind]. intros [= <-]. cbn [max_abs]. intros H.
  apply fold_maximum_attained in H as (row & Hrow & Hx).
  change (map abs r :: map (map abs) rs) with (map (map abs) (r :: rs)) in Hrow.
  apply list_elem_of_fmap in Hrow as (row0 & -> & Hrow0).
  change (map abs row0 !! c) with ((abs <$> row0) !! c) in Hx.
  rewrite list_lookup_fmap in Hx.
  destruct (row0 !! c) as [y|] eqn:Ey; [|discriminate].
  injection Hx as <-. exists row0, y. auto.
Qed.

Lemma max_abs_attained_witness :
  exists (row : list float) (y : float),
    row ∈ [[1; -2]; [3; -4]]%float /\ row !! 1%nat = Some y /\ 4%float = abs y.
Proof.
  apply (max_abs_attained [[1; -2]; [3; -4]]%float
           {| max_abs := [3; 4]%float; mean := [2; -3]%float;
              mean_abs := [2; 3]%float; std := [1; 1]%float |}).
  - vm_compute. reflexivity.
  - reflexivity.
Defined.

(** ** The table *)

Lemma print_rows_complete (st : stats) (idxs : list nat) :
  (forall i, i ∈ idxs ->
     (i < length (max_abs st))%nat /\ (i < length (mean st))%nat
     /\ (i < length (mean_abs st))%nat /\ (i < length (std st))%nat) ->
  print_rows st idxs = (map (table_row st) idxs, None).
Proof.
  induction idxs as [|i idxs IH]; intros H; simpl; [reflexivity|].
  destruct (H i ltac:(left)) as (H1 & H2 & H3 & H4).
  apply lookup_lt_is_Some_2 in H1 as [a Ha], H2 as [b Hb], H3 as [c Hc], H4 as [d Hd].
  unfold table_row at 1. rewrite Ha, Hb, Hc, Hd.
  rewrite IH by (intros j Hj; apply H; right; exact Hj). reflexivity.
Qed.

Lemma print_table (m : ndarray) (st : stats) (data_type : string)
    (cfg : data_type_config) :
  dict_get DATA_TYPES data_type = Ok cfg ->
  rectangular m ->
  calculate_stats m = Ok st ->
  print_statistics st data_type
  = (Title (dt_label cfg) :: map (table_row st) (seq 0 (ncols m)), None).
Proof.
  intros Hcfg Hrect Hst.
  assert (Hne : m <> []) by (intros ->; discriminate Hst).
  destruct (stats_lengths m Hne Hrect) as (st' & Hst' & L1 & L2 & L3 & L4).
  rewrite Hst in Hst'. injection Hst' as <-.
  unfold print_statistics. rewrite Hcfg, L1.
  rewrite print_rows_complete; [reflexivity|].
  intros i Hi. apply elem_of_seq in Hi. rewrite L1, L2, L3, L4. lia.
Qed.

(** X9.  The statistics of a rectangular matrix with a row always fill the
    table: [print_statistics] prints the title and one row per column, in
    order, and never goes out of range. *)
Theorem print_statistics_complete (m : ndarray) (st : stats) (data_type : string)
    (cfg : data_type_config) :
  dict_get DATA_TYPES data_type = Ok cfg ->
  rectangular m ->
  calculate_stats m = Ok st ->
  print_statistics st data_type
  = (Title (dt_label cfg) :: map (table_row st) (seq 0 (ncols m)), None).
Proof. apply print_table. Qed.

Lemma print_statistics_complete_witness :
  print_statistics
    {| max_abs := [3; 4]%float; mean := [2; -3]%float;
       mean_abs := [2; 3]%float; std := [1; 1]%float |} "torque"
  = (Title "Torque (Nm)"
       :: map (table_row {| max_abs := [3; 4]%float; mean := [2; -3]%float;
                            mean_abs := [2; 3]%float; std := [1; 1]%float |})
            (seq 0 (ncols [[1; -2]; [3; -4]]%float)), None).
Proof.
  refine (print_statistics_complete [[1; -2]; [3; -4]]%float _ "torque"
            {| dt_pattern := torque_pattern; dt_label := "Torque (Nm)" |} _ _ _).
  - reflexivity.
  - intros r1 r2 H1 H2.
    repeat (apply elem_of_cons in H1 as [-> | H1]);
      repeat (apply elem_of_cons in H2 as [-> | H2]);
      try reflexivity; try inversion H1; try inversion H2.
  - vm_compute. reflexivity.
Defined.

(** ** The figure and [main] *)

Lemma column_length (m : ndarray) (n j : nat) :
  Forall (fun row : list float => length row = n) m -> (j < n)%nat ->
  length (column m j) = length m.
Proof.
  intros Hm Hj. unfold column. induction Hm as [|row m Hrow _ IH]; [reflexivity|].
  cbn [omap list_omap]. destruct (lookup_lt_is_Some_2 row j ltac:(lia)) as [x ->].
  cbn. f_equal. exact IH.
Qed.

Lemma run_bind_ret {A B : Type} (a : A) (k : A -> run B) : run_bind (run_ret a) k = k a.
Proof. reflexivity. Qed.

Lemma run_bind_fail {A B : Type} (f : failure) (k : A -> run B) :
  run_bind (run_fail f) k = run_fail f.
Proof. reflexivity. Qed.

Lemma fails_only_ret {A : Type} (env : environment) (allowed : failure -> Prop) (a : A) :
  fails_only env allowed (run_ret a).
Proof. intros h h' r [= <- <-] Hh. split; [exact Hh | discriminate]. Qed.

Lemma fails_only_fail {A : Type} (env : environment) (allowed : failure -> Prop)
    (f : failure) :
  allowed f -> fails_only env allowed (@run_fail A f).
Proof.
  intros Hf h h' r [= <- <-] Hh. split; [exact Hh|]. intros f' [= <-]. left. exact Hf.
Qed.

Lemma fails_only_bind {A B : Type} (env : environment) (allowed : failure -> Prop)
    (m : run A) (k : A -> run B) :
  fails_only env allowed m -> (forall a, fails_only env allowed (k a)) ->
  fails_only env allowed (run_bind m k).
Proof.
  intros Hm Hk h h' r. unfold run_bind.
  destruct (m h) as [h1 [a|f]] eqn:E; intros H Hh.
  - destruct (Hm h h1 _ E Hh) as [Hh1 _]. exact (Hk a h1 h' r H Hh1).
  - injection H as <- <-. destruct (Hm h h1 _ E Hh) as [Hh1 Hf].
    split; [exact Hh1|]. intros f' [= <-]. apply Hf. reflexivity.
Qed.

Lemma fails_only_invoke (env : environment) (allowed : failure -> Prop) (c : call) :
  plot_ok c = true -> fails_only env allowed (invoke env c).
Proof.
  intros Hc h h' r. unfold invoke. intros [= <- <-] Hh. split.
  - apply Forall_app. split; [exact Hh | constructor; [exact Hc | constructor]].
  - intros f Hf. right. exists h, c.
    destruct (env h c) as [e|]; [|discriminate]. injection Hf as <-.
    exists e. repeat split.
Qed.

Lemma fails_only_weaken {A : Type} (env : environment) (P Q : failure -> Prop)
    (m : run A) :
  (forall f, P f -> Q f) -> fails_only env P m -> fails_only env Q m.
Proof.
  intros HPQ Hm h h' r E Hh. destruct (Hm h h' r E Hh) as [Hh' Hf].
  split; [exact Hh'|]. intros f Hr. destruct (Hf f Hr) as [HP|HR]; [left; auto | right; exact HR].
Qed.

Lemma fails_only_print_all (env : environment) (allowed : failure -> Prop)
    (outs : list output) :
  fails_only env allowed (print_all env outs).
Proof.
  induction outs as [|o outs IH]; cbn [print_all].
  - apply fails_only_ret.
  - apply fails_only_bind; [apply fails_only_invoke; reflexivity | intros _; exact IH].
Qed.

(** On the statistics of the matrix the loop of the figure fails in the
    calls only. *)
Lemma plot_joints_fails_only (env : environment) (stp : list Z) (m : ndarray) (st : stats)
    (n : nat) (joints : list nat) :
  length stp = length m ->
  Forall (fun row : list float => length row = n) m ->
  length (max_abs st) = n -> length (mean_abs st) = n ->
  (forall j, j ∈ joints -> (j < n)%nat) ->
  fails_only env (fun _ => False) (plot_joints env stp m st joints).
Proof.
  intros Hlen Hm L1 L3. induction joints as [|j joints IH]; intros Hj.
  - apply fails_only_ret.
  - cbn [plot_joints]. pose proof (Hj j ltac:(left)) as Hjn. unfold index.
    destruct (lookup_lt_is_Some_2 (max_abs st) j ltac:(lia)) as [mx ->].
    destruct (lookup_lt_is_Some_2 (mean_abs st) j ltac:(lia)) as [ma ->].
    apply fails_only_bind.
    { apply fails_only_invoke. cbn [plot_ok].
      rewrite (column_length m n j Hm Hjn), Hlen. apply Nat.eqb_refl. }
    intros _. rewrite run_bind_ret.
    apply fails_only_bind; [apply fails_only_invoke; reflexivity|].
    intros _. rewrite run_bind_ret.
    apply fails_only_bind; [apply fails_only_invoke; reflexivity|].
    intros _. apply IH. intros k Hk. apply Hj. right. exact Hk.
Qed.

Lemma plot_data_curves_fails_only (env : environment) (stp : list Z) (m : ndarray)
    (st : stats) (data_type : string) (cfg : data_type_config) :
  dict_get DATA_TYPES data_type = Ok cfg ->
  m <> [] -> rectangular m -> length stp = length m ->
  length (max_abs st) = ncols m -> length (mean_abs st) = ncols m ->
  fails_only env (fun _ => False) (plot_data_curves env stp m st data_type).
Proof.
  intros Hcfg Hne Hrect Hlen L1 L3. unfold plot_data_curves.
  destruct m as [|r rs]; [congruence|]. rewrite Hcfg. cbn [lift_res shape1].
  apply fails_only_bind; [apply fails_only_invoke; reflexivity|]. intros _.
  apply fails_only_bind; [apply fails_only_invoke; reflexivity|]. intros _.
  rewrite !run_bind_ret.
  apply fails_only_bind.
  { apply (plot_joints_fails_only env stp (r :: rs) st (length r)); try assumption.
    - apply rectangular_rows, Hrect.
    - intros j Hj. apply elem_of_seq in Hj. lia. }
  intros _.
  repeat (apply fails_only_bind; [apply fails_only_invoke; reflexivity | intros _]).
  apply fails_only_invoke. reflexivity.
Qed.

Lemma parse_file_ok_inv (opened : res reading) (data_type : string) (stp : list Z)
    (m : ndarray) :
  parse_log_file opened data_type = Ok (stp, m) ->
  (exists cfg, dict_get DATA_TYPES data_type = Ok cfg)
  /\ length stp = length m /\ rectangular m.
Proof.
  unfold parse_log_file.
  destruct (dict_get DATA_TYPES data_type) as [cfg|]; cbn [res_bind]; [|discriminate].
  destruct opened as [r|]; cbn [res_bind]; [|discriminate].
  destruct (read_lines (dt_pattern cfg) scan_start (file_lines (text_read r)))
    as [st|] eqn:E; cbn [res_bind]; [|discriminate].
  destruct (read_error r); [discriminate|].
  destruct (np_array (data_matrix st)) as [m'|] eqn:A; cbn [res_bind]; [|discriminate].
  intros [= <- <-]. apply np_array_ok in A as [-> Hr].
  split; [eauto|]. split; [|exact Hr].
  eapply scan_lines_lengths; [apply read_lines_ok; exact E | reflexivity].
Qed.

(** The block for one data type fails in the parsing or in a call. *)
Lemma main_for_fails_only (env : environment) (opened : res reading)
    (data_type name : string) :
  fails_only env (fun f => exists e, f = Exn e /\ parse_log_file opened data_type = Raise e)
    (main_for env opened data_type name).
Proof.
  unfold main_for.
  destruct (parse_log_file opened data_type) as [[stp m]|e] eqn:P; cbn [lift_res].
  - rewrite run_bind_ret. cbn [fst snd].
    destruct (parse_file_ok_inv _ _ _ _ P) as ([cfg Hcfg] & Hlen & Hrect).
    destruct (0 <? np_size m)%nat eqn:Hs; [|apply fails_only_invoke; reflexivity].
    apply Nat.ltb_lt in Hs. unfold np_size in Hs.
    assert (Hne : m <> []) by (intros ->; simpl in Hs; lia).
    destruct (stats_lengths m Hne Hrect) as (st & Hst & L1 & L2 & L3 & L4).
    rewrite Hst. cbn [lift_res]. rewrite run_bind_ret.
    rewrite (print_table m st data_type cfg Hcfg Hrect Hst).
    apply (fails_only_weaken env (fun _ => False)); [intros f []|].
    apply fails_only_bind.
    + unfold printing. cbn [fst snd].
      apply fails_only_bind; [apply fails_only_print_all | intros _; apply fails_only_ret].
    + intros _. apply (plot_data_curves_fails_only env stp m st data_type cfg); assumption.
  - rewrite run_bind_fail. apply fails_only_fail. exists e. split; reflexivity.
Qed.

Lemma main_for_raised (env : environment) (opened : res reading) (data_type name : string)
    (e : exn) (h : list call) :
  parse_log_file opened data_type = Raise e ->
  main_for env opened data_type name h = (h, Failed (Exn e)).
Proof. intros P. unfold main_for. rewrite P. reflexivity. Qed.

Lemma main_fails_only (env : environment) (first second : res reading) :
  fails_only env
    (fun f => exists e, f = Exn e
                        /\ (parse_log_file first "torque" = Raise e
                            \/ parse_log_file second "action" = Raise e))
    (main env first second).
Proof.
  unfold main. apply fails_only_bind; [|intros _].
  - eapply fails_only_weaken; [|apply main_for_fails_only].
    intros f (e & -> & H). exists e. split; [reflexivity | left; exact H].
  - eapply fails_only_weaken; [|apply main_for_fails_only].
    intros f (e & -> & H). exists e. split; [reflexivity | right; exact H].
Qed.

(** X10.  [main] fails only where the log is read or in a call into the
    environment.  A failure of [main] is an exception that
    [parse_log_data] raised for one of the two data types, or the exception
    that the last call, to [print], [pathlib] or [matplotlib], raised: the
    statistics, the indexing and the table never fail on what
    [parse_log_data] returned.  Every call of [plt.plot] gets as many steps
    as values.  And in an environment whose calls never raise, [main] ends
    normally exactly when [parse_log_data] returns for both data types. *)
Theorem main_failures (env : environment) (first second : res reading) :
  (forall h f,
      main env first second [] = (h, Failed f) ->
      (exists e, f = Exn e
                 /\ (parse_log_file first "torque" = Raise e
                     \/ parse_log_file second "action" = Raise e))
      \/ raised_by env h f)
  /\ (forall h r,
        main env first second [] = (h, r) -> Forall (fun c => plot_ok c = true) h)
  /\ ((forall h c, env h c = None) ->
      (is_done (snd (main env first second [])) = true
       <-> is_ok (parse_log_file first "torque") = true
           /\ is_ok (parse_log_file second "action") = true)).
Proof.
  pose proof (main_fails_only env first second) as Hmain.
  split; [|split].
  - intros h f E. destruct (Hmain [] h _ E ltac:(constructor)) as [_ Hf].
    apply Hf. reflexivity.
  - intros h r E. exact (proj1 (Hmain [] h r E ltac:(constructor))).
  - intros Henv. split.
    + intros Hd. unfold main, run_bind in Hd.
      destruct (parse_log_file first "torque") as [pt|e] eqn:Pt.
      * split; [reflexivity|].
        destruct (parse_log_file second "action") as [pa|e] eqn:Pa; [reflexivity|].
        destruct (main_for env first "torque" "Torque" []) as [h1 [[]|f]];
          [|discriminate Hd].
        rewrite (main_for_raised env second "action" "Action" e h1 Pa) in Hd.
        discriminate Hd.
      * rewrite (main_for_raised env first "torque" "Torque" e [] Pt) in Hd.
        discriminate Hd.
    + intros [Ht Ha].
      destruct (main env first second []) as [h [[]|f]] eqn:E; [reflexivity|].
      destruct (Hmain [] h _ E ltac:(constructor)) as [_ Hf].
      destruct (Hf f eq_refl) as [(e & _ & [H|H]) | (h0 & c & e & _ & H & _)].
      * rewrite H in Ht. discriminate Ht.
      * rewrite H in Ha. discriminate Ha.
      * rewrite Henv in H. discriminate H.
Qed.

Lemma main_failures_witness :
  (exists e,
      Exn (RuntimeError "no display") = Exn e
      /\ (parse_log_file
            (Ok (whole (text_of_lines ["Step 0:"; "Output Torque: [1.0, -2.0]"]%string)))
            "torque" = Raise e
          \/ parse_log_file
               (Ok (whole (text_of_lines ["Step 0:"; "Output Torque: [1.0, -2.0]"]%string)))
               "action" = Raise e))
  \/ raised_by
       (fun _ c => match c with Figure => Some (RuntimeError "no display") | _ => None end)
       [Print (Title "Torque (Nm)"); Print (Row 0 1 1 1 0); Print (Row 1 2 (-2) 2 0);
        MakeDir "output"; Figure]
       (Exn (RuntimeError "no display")).
Proof.
  refine (proj1 (main_failures
                   (fun _ c =>
                      match c with Figure => Some (RuntimeError "no display") | _ => None end)
                   (Ok (whole (text_of_lines
                                 ["Step 0:"; "Output Torque: [1.0, -2.0]"]%string)))
                   (Ok (whole (text_of_lines
                                 ["Step 0:"; "Output Torque: [1.0, -2.0]"]%string))))
            _ _ _).
  vm_compute. reflexivity.
Defined.

Lemma scan_lines_no_data (p : pattern) (lines : list str) (st : scan) :
  Forall (fun line => matches p line = false) lines ->
  exists st', scan_lines p st lines = Ok st'
              /\ steps st' = steps st /\ data_matrix st' = data_matrix st.
Proof.
  intros H. revert st. induction H as [|line lines Hl _ IH]; intros st.
  - exists st. repeat split.
  - cbn [scan_lines]. unfold scan_line at 1. unfold matches in Hl.
    destruct (search p line); [discriminate|]. cbn [res_bind].
    destruct (IH {| current_step :=
                      match search step_pattern line with
                      | Some g => Some (py_int g)
                      | None => current_step st
                      end;
                    steps := steps st; data_matrix := data_matrix st |})
      as (st' & -> & Hs & Hd).
    exists st'. repeat split; assumption.
Qed.

Lemma parse_no_data (text : str) (data_type : string) (cfg : data_type_config) :
  dict_get DATA_TYPES data_type = Ok cfg ->
  Forall (fun line => matches (dt_pattern cfg) line = false) (file_lines text) ->
  parse_log_data text data_type = Ok ([], []).
Proof.
  intros Hcfg H. unfold parse_log_data. rewrite Hcfg. cbn [res_bind].
  destruct (scan_lines_no_data _ _ scan_start H) as (st' & -> & Hs & Hd).
  cbn [res_bind]. rewrite Hd, Hs. reflexivity.
Qed.

(** X11.  On a log in which no line matches a data pattern, be there step
    lines or not, [main] computes nothing and draws nothing: when the file
    is read to its end both times, its step numbers have at most 4300
    digits and [print] does not raise, [main] makes two calls, the prints
    of the two warnings, for the torques and then for the actions, and ends
    normally. *)
Theorem main_without_data (env : environment) (t1 t2 : str) :
  (forall h o, env h (Print o) = None) ->
  Forall (fun line => matches torque_pattern line = false
                      /\ step_digits_ok line = true) (file_lines t1) ->
  Forall (fun line => matches action_pattern line = false
                      /\ step_digits_ok line = true) (file_lines t2) ->
  main env (Ok (whole t1)) (Ok (whole t2)) []
  = ([Print (NoData "Torque"); Print (NoData "Action")], Done tt).
Proof.
  intros Hprint H1 H2. unfold main, main_for.
  rewrite (parse_log_file_whole t1 "torque")
    by (eapply Forall_impl; [exact H1 | intros line [_ Hd]; exact Hd]).
  rewrite (parse_log_file_whole t2 "action")
    by (eapply Forall_impl; [exact H2 | intros line [_ Hd]; exact Hd]).
  rewrite (parse_no_data t1 "torque" _ eq_refl)
    by (eapply Forall_impl; [exact H1 | intros line [Hm _]; exact Hm]).
  rewrite (parse_no_data t2 "action" _ eq_refl)
    by (eapply Forall_impl; [exact H2 | intros line [Hm _]; exact Hm]).
  cbn [lift_res]. rewrite !run_bind_ret. cbn [snd np_size length Nat.mul Nat.ltb Nat.leb].
  unfold run_bind, invoke. rewrite !Hprint. reflexivity.
Qed.

Lemma main_without_data_witness :
  main (fun _ _ => None)
    (Ok (whole (text_of_lines ["Step 0:"; "starting"; "Step 1:"]%string)))
    (Ok (whole (text_of_lines ["Step 0:"; "starting"; "Step 1:"]%string))) []
  = ([Print (NoData "Torque"); Print (NoData "Action")], Done tt).
Proof.
  apply main_without_data.
  - reflexivity.
  - repeat constructor.
  - repeat constructor.
Defined.

(** * Further properties of the episode logger *)

(** ** Recording *)

Lemma series_insert_ne (log : gmap string (list value)) (key k : string) (vs : list value) :
  key <> k -> series (<[key := vs]> log) k = series log k.
Proof. intros H. unfold series. rewrite lookup_insert_ne by exact H. reflexivity. Qed.

Lemma series_log_state (self : Logger) (key k : string) (v : value) :
  series (state_log (log_state self key v)) k
  = series (state_log self) k ++ (if String.eqb key k then [v] else []).
Proof.
  unfold log_state. cbn [state_log].
  destruct (String.eqb key k) eqn:E.
  - apply String.eqb_eq in E. subst k. apply series_insert.
  - apply String.eqb_neq in E. rewrite series_insert_ne by exact E.
    rewrite app_nil_r. reflexivity.
Qed.

(** X12.  [log_states] appends to each series the observations that the
    dictionary holds under its name, in order, and touches neither the
    reward log nor [dt] nor the number of episodes. *)
Theorem log_states_appends (self : Logger) (d : list (string * value)) (k : string) :
  series (state_log (log_states self d)) k
  = series (state_log self) k ++ appended_states d k
  /\ rew_log (log_states self d) = rew_log self
  /\ dt (log_states self d) = dt self
  /\ num_episodes (log_states self d) = num_episodes self.
Proof.
  unfold log_states, appended_states. revert self.
  induction d as [|[key v] d IH]; intros self; cbn [fold_left List.filter map fst snd].
  - rewrite app_nil_r. repeat split.
  - destruct (IH (log_state self key v)) as (Hs & Hr & Hd & Hn).
    rewrite Hs, Hr, Hd, Hn, series_log_state.
    split; [|repeat split].
    rewrite <- app_assoc. f_equal. destruct (String.eqb key k); reflexivity.
Qed.

Lemma log_rewards_loop_appends (d : list (string * value)) (n : Z)
    (rl : gmap string (list value)) :
  (forall kv, kv ∈ d -> reward_entry kv = true -> is_ok (scaled_reward (snd kv) n) = true) ->
  exists rl',
    log_rewards_loop rl d n = (rl', Ok tt)
    /\ forall key, series rl' key = series rl key ++ appended_rewards d n key.
Proof.
  revert rl. induction d as [|[k v] d IH]; intros rl Hall.
  - exists rl. split; [reflexivity|]. intros key. cbn. rewrite app_nil_r. reflexivity.
  - cbn [log_rewards_loop]. unfold appended_rewards. cbn [flat_map].
    fold (appended_rewards d n). unfold reward_entry at 1. cbn [fst snd].
    destruct (contains (s "rew") (s k)) eqn:Hk; cbn [andb].
    + pose proof (Hall (k, v) ltac:(left) Hk) as Hv. cbn [snd] in Hv.
      destruct (scaled_reward v n) as [r|]; [|discriminate].
      destruct (IH (<[k := series (<[k := series rl k]> rl) k ++ [VFloat r]]>
                      (<[k := series rl k]> rl)))
        as (rl' & -> & Hs); [intros kv Hkv; apply Hall; right; exact Hkv|].
      exists rl'. split; [reflexivity|]. intros key. rewrite Hs.
      rewrite series_insert.
      destruct (String.eqb k key) eqn:E.
      * apply String.eqb_eq in E. subst key. rewrite series_insert, app_assoc. reflexivity.
      * apply String.eqb_neq in E. rewrite !series_insert_ne by exact E. reflexivity.
    + destruct (IH rl) as (rl' & -> & Hs); [intros kv Hkv; apply Hall; right; exact Hkv|].
      exists rl'. split; [reflexivity | exact Hs].
Qed.

(** X13.  When every entry named as a reward holds a value with [item()]
    and the episode count converts to a float, [log_rewards] ends normally:
    each series of the reward log gains the scaled rewards of the entries of
    its name, in order, the number of episodes grows by the count, and the
    state log and [dt] stay as they are. *)
Theorem log_rewards_appends (self : Logger) (d : list (string * value)) (n : Z) :
  (forall kv, kv ∈ d -> reward_entry kv = true -> is_ok (scaled_reward (snd kv) n) = true) ->
  exists lg,
    log_rewards self d n = (lg, Ok tt)
    /\ (forall key, series (rew_log lg) key
                    = series (rew_log self) key ++ appended_rewards d n key)
    /\ num_episodes lg = num_episodes self + n
    /\ state_log lg = state_log self /\ dt lg = dt self.
Proof.
  intros Hall. unfold log_rewards.
  destruct (log_rewards_loop_appends d n (rew_log self) Hall) as (rl' & -> & Hs).
  eexists. split; [reflexivity|]. cbn. repeat split. exact Hs.
Qed.

Lemma log_rewards_appends_witness :
  exists lg,
    log_rewards (Logger_init 0.5)
      [("rew_a"%string, VTensor (Num 2)); ("dof_pos"%string, VFloat 1);
       ("rew_b"%string, VArray (Dim [Num 0.5]))] 4 = (lg, Ok tt)
    /\ (forall key, series (rew_log lg) key
                    = series (rew_log (Logger_init 0.5)) key
                      ++ appended_rewards
                           [("rew_a"%string, VTensor (Num 2)); ("dof_pos"%string, VFloat 1);
                            ("rew_b"%string, VArray (Dim [Num 0.5]))] 4 key)
    /\ num_episodes lg = num_episodes (Logger_init 0.5) + 4
    /\ state_log lg = state_log (Logger_init 0.5) /\ dt lg = dt (Logger_init 0.5).
Proof.
  apply log_rewards_appends.
  intros kv Hkv Hr.
  repeat (apply elem_of_cons in Hkv as [-> | Hkv]); try reflexivity; try discriminate Hr.
  inversion Hkv.
Defined.

Lemma log_rewards_loop_raises (d : list (string * value)) (n : Z)
    (rl : gmap string (list value)) :
  (exists kv, kv ∈ d /\ reward_entry kv = true /\ is_ok (scaled_reward (snd kv) n) = false) ->
  exists rl' e, log_rewards_loop rl d n = (rl', Raise e).
Proof.
  revert rl. induction d as [|[k v] d IH]; intros rl (kv & Hkv & Hr & Hbad).
  - inversion Hkv.
  - cbn [log_rewards_loop].
    destruct (contains (s "rew") (s k)) eqn:Hk.
    + destruct (scaled_reward v n) as [r|e] eqn:Hv; [|eauto].
      apply IH. exists kv. split; [|split; assumption].
      apply elem_of_cons in Hkv as [-> | Hkv]; [|exact Hkv].
      cbn [snd] in Hbad. rewrite Hv in Hbad. discriminate.
    + apply IH. exists kv. split; [|split; assumption].
      apply elem_of_cons in Hkv as [-> | Hkv]; [|exact Hkv].
      unfold reward_entry in Hr. cbn [fst] in Hr. congruence.
Qed.

(** X14.  When an entry named as a reward holds a value without [item()],
    or the count is too large for a float, [log_rewards] raises, and the
    episodes are not counted: the number of episodes, the state log and
    [dt] are as before. *)
Theorem log_rewards_raises (self : Logger) (d : list (string * value)) (n : Z)
    (kv : string * value) :
  kv ∈ d -> reward_entry kv = true -> is_ok (scaled_reward (snd kv) n) = false ->
  exists lg e,
    log_rewards self d n = (lg, Raise e)
    /\ num_episodes lg = num_episodes self
    /\ state_log lg = state_log self /\ dt lg = dt self.
Proof.
  intros Hkv Hr Hbad. unfold log_rewards.
  destruct (log_rewards_loop_raises d n (rew_log self)) as (rl' & e & ->); [eauto|].
  eexists _, _. split; [reflexivity|]. repeat split.
Qed.

Lemma log_rewards_raises_witness :
  exists lg e,
    log_rewards (Logger_init 0.5)
      [("rew_a"%string, VTensor (Num 2)); ("rew_b"%string, VList [VFloat 1])] 4
    = (lg, Raise e)
    /\ num_episodes lg = num_episodes (Logger_init 0.5)
    /\ state_log lg = state_log (Logger_init 0.5) /\ dt lg = dt (Logger_init 0.5).
Proof.
  apply (log_rewards_raises _ _ _ ("rew_b"%string, VList [VFloat 1])).
  - right. left.
  - reflexivity.
  - reflexivity.
Defined.

(** ** Conversion of the logs *)

Lemma convert_series_length (values values' : list value) :
  convert_series values = Ok values' -> length values' = length values.
Proof.
  unfold convert_series. destruct values as [|v0 values]; [intros [= <-]; reflexivity|].
  destruct (has_cpu v0); [apply res_map_length|].
  destruct (is_ndarray v0); [apply res_map_length|].
  intros [= <-]. reflexivity.
Qed.

(** X15.  A conversion that ends normally keeps the shape of the log: the
    converted log has the same names, and under each name a series of the
    same length. *)
Theorem convert_log_keeps_series (log log' : gmap string (list value)) (k : string) :
  _convert_log log = Ok log' ->
  (is_Some (log' !! k) <-> is_Some (log !! k))
  /\ length (series log' k) = length (series log k).
Proof.
  intros H. pose proof (res_map_log_lookup convert_series log log' k H) as Hk.
  unfold series. destruct (log !! k) as [a|].
  - destruct Hk as (b & Hb & ->). cbn [default]. split.
    + split; eauto.
    + apply convert_series_length, Hb.
  - rewrite Hk. split; [tauto | reflexivity].
Qed.

Lemma convert_log_keeps_series_witness :
  (is_Some ((map normalize <$> ({[ "a"%string := [VTensor (Num 1); VTensor (Num 2)] ]}
                                 : gmap string (list value))) !! "a"%string)
   <-> is_Some (({[ "a"%string := [VTensor (Num 1); VTensor (Num 2)] ]}
                  : gmap string (list value)) !! "a"%string))
  /\ length (series (map normalize <$> {[ "a"%string := [VTensor (Num 1); VTensor (Num 2)] ]})
               "a")
     = length (series {[ "a"%string := [VTensor (Num 1); VTensor (Num 2)] ]} "a").
Proof.
  apply convert_log_keeps_series.
  apply convert_log_uniform. apply map_Forall_singleton. reflexivity.
Defined.

Lemma tolist_is_plain_head (a : nested) :
  has_cpu (tolist a) = false /\ is_ndarray (tolist a) = false.
Proof. destruct a; split; reflexivity. Qed.

Lemma convert_series_idempotent (values values' : list value) :
  convert_series values = Ok values' -> convert_series values' = Ok values'.
Proof.
  unfold convert_series at 1. destruct values as [|v0 values]; [intros [= <-]; reflexivity|].
  destruct (has_cpu v0) eqn:Hc.
  - cbn [res_map]. destruct v0; try discriminate. cbn [cpu_numpy_tolist res_bind].
    destruct (res_map cpu_numpy_tolist values); cbn [res_bind]; [|discriminate].
    intros [= <-]. unfold convert_series.
    destruct (tolist_is_plain_head a) as [-> ->]. reflexivity.
  - destruct (is_ndarray v0) eqn:Ha.
    + cbn [res_map]. destruct v0; try discriminate. cbn [tolist_method res_bind].
      destruct (res_map tolist_method values); cbn [res_bind]; [|discriminate].
      intros [= <-]. unfold convert_series.
      destruct (tolist_is_plain_head a) as [-> ->]. reflexivity.
    + intros [= <-]. unfold convert_series. rewrite Hc, Ha. reflexivity.
Qed.

(** X16.  Converting twice is converting once: a converted log is left as
    it is by another conversion. *)
Theorem convert_log_idempotent (log log' : gmap string (list value)) :
  _convert_log log = Ok log' -> _convert_log log' = Ok log'.
Proof.
  intros H. unfold _convert_log.
  rewrite (res_map_log_ok convert_series (fun vs => vs)).
  - rewrite map_fmap_id. reflexivity.
  - intros k vs' Hk.
    pose proof (res_map_log_lookup convert_series log log' k H) as Hl.
    destruct (log !! k) as [vs|]; [|congruence].
    destruct Hl as (b & Hb & Hb'). rewrite Hk in Hb'. injection Hb' as <-.
    eapply convert_series_idempotent, Hb.
Qed.

Lemma convert_log_idempotent_witness :
  _convert_log (map normalize <$> ({[ "a"%string := [VArray (Dim [Num 1]); VArray (Num 2)] ]}
                                    : gmap string (list value)))
  = Ok (map normalize <$> {[ "a"%string := [VArray (Dim [Num 1]); VArray (Num 2)] ]}).
Proof.
  apply (convert_log_idempotent {[ "a"%string := [VArray (Dim [Num 1]); VArray (Num 2)] ]}).
  apply convert_log_uniform. apply map_Forall_singleton. reflexivity.
Defined.

(** ** Files written and read back *)





(** X19.  The file of a [save] that ended normally holds the converted
    logs as they are, be their series of one kind or not: the format was
    [json] or [pkl], the conversion of both logs ended normally, and [load]
    on the written path gives a logger with exactly the converted logs, the
    same [dt] and the same number of episodes. *)
Theorem save_load_converted (self other : Logger) (fs fs' : store)
    (filename format save_dir : string) :
  filename <> ""%string ->
  "/"%char ∉ s filename ->
  save self fs filename format save_dir = (fs', Ok tt) ->
  ((format = "json"%string) \/ (format = "pkl"%string))
  /\ exists sl rl,
      _convert_log (state_log self) = Ok sl
      /\ _convert_log (rew_log self) = Ok rl
      /\ load other fs' (save_path save_dir filename format)
         = ({| state_log := sl; rew_log := rl; dt := dt self;
               num_episodes := num_episodes self |}, Ok tt).
Proof. apply load_after_save. Qed.

Lemma save_load_converted_witness :
  (("pkl"%string = "json"%string) \/ ("pkl"%string = "pkl"%string))
  /\ exists sl rl,
      _convert_log (<["a"%string := [VFloat 1; VArray (Num 2)]]> ∅) = Ok sl
      /\ _convert_log ∅ = Ok rl
      /\ load (Logger_init 0)
           (fst (save {| state_log := <["a"%string := [VFloat 1; VArray (Num 2)]]> ∅;
                         rew_log := ∅; dt := 0.5; num_episodes := 3 |}
                      empty_store "run" "pkl" "./logs"))
           (save_path "./logs" "run" "pkl")
         = ({| state_log := sl; rew_log := rl; dt := 0.5; num_episodes := 3 |}, Ok tt).
Proof.
  refine (save_load_converted
            {| state_log := <["a"%string := [VFloat 1; VArray (Num 2)]]> ∅; rew_log := ∅;
               dt := 0.5; num_episodes := 3 |}
            (Logger_init 0) empty_store _ "run" "pkl" "./logs" _ _ _).
  - discriminate.
  - intros H. cbn in H. repeat (apply elem_of_cons in H as [H|H]; [discriminate H|]).
    inversion H.
  - vm_compute. reflexivity.
Defined.

Lemma plain_uniform (log : gmap string (list value)) :
  map_Forall (fun _ values => forallb is_plain values = true) log ->
  map_Forall (fun _ values => uniform_series values = true) log
  /\ map normalize <$> log = log.
Proof.
  intros H. split.
  - intros k vs Hk. unfold uniform_series. rewrite (H k vs Hk). apply orb_true_r.
  - rewrite <- (map_fmap_id log) at 2. apply map_fmap_ext. intros k vs Hk.
    apply map_id_on. pose proof (H k vs Hk) as Hp. apply forallb_Forall in Hp.
    eapply Forall_impl; [exact Hp|]. intros v Hv. apply normalize_id, Hv.
Qed.

(** X20.  A logger whose series hold plain numbers and lists only, as one
    read from a file does, is read back without change from the file of a
    [save] that ended normally, in either format. *)
Theorem plain_logger_roundtrip (self other : Logger) (fs fs' : store)
    (filename format save_dir : string) :
  filename <> ""%string ->
  "/"%char ∉ s filename ->
  map_Forall (fun _ values => forallb is_plain values = true) (state_log self) ->
  map_Forall (fun _ values => forallb is_plain values = true) (rew_log self) ->
  save self fs filename format save_dir = (fs', Ok tt) ->
  load other fs' (save_path save_dir filename format) = (self, Ok tt).
Proof.
  intros Hne Hsep Hsl Hrl Hsave.
  destruct (plain_uniform _ Hsl) as [Usl Isl].
  destruct (plain_uniform _ Hrl) as [Url Irl].
  destruct (load_after_save self other fs fs' filename format save_dir Hne Hsep Hsave)
    as (_ & sl & rl & Csl & Crl & ->).
  rewrite (convert_log_uniform _ Usl), Isl in Csl.
  rewrite (convert_log_uniform _ Url), Irl in Crl.
  injection Csl as <-. injection Crl as <-. destruct self; reflexivity.
Qed.

Lemma plain_logger_roundtrip_witness :
  load (Logger_init 0)
    (fst (save {| state_log := <["dof_pos"%string := [VList [VFloat 0.5; VFloat 1]]]> ∅;
                  rew_log := <["total_rew"%string := [VFloat 6; VInt 2]]> ∅;
                  dt := 0.5; num_episodes := 8 |}
               empty_store "run" "json" "./logs"))
    (save_path "./logs" "run" "json")
  = ({| state_log := <["dof_pos"%string := [VList [VFloat 0.5; VFloat 1]]]> ∅;
        rew_log := <["total_rew"%string := [VFloat 6; VInt 2]]> ∅;
        dt := 0.5; num_episodes := 8 |}, Ok tt).
Proof.
  refine (plain_logger_roundtrip
            {| state_log := <["dof_pos"%string := [VList [VFloat 0.5; VFloat 1]]]> ∅;
               rew_log := <["total_rew"%string := [VFloat 6; VInt 2]]> ∅;
               dt := 0.5; num_episodes := 8 |}
            (Logger_init 0) empty_store _ "run" "json" "./logs" _ _ _ _ _).
  - discriminate.
  - intros H. cbn in H. repeat (apply elem_of_cons in H as [H|H]; [discriminate H|]).
    inversion H.
  - apply map_Forall_insert_2; [reflexivity | apply map_Forall_empty].
  - apply map_Forall_insert_2; [reflexivity | apply map_Forall_empty].
  - vm_compute. reflexivity.
Defined.
